(** * go-oauth2-pg: PostgreSQL client and token stores for OAuth2

    A shallow embedding of [client_store.go] and of the mock adapter and
    scenarios of the package's test file, together with the properties the
    specification states about them.

    Conventions of the embedding:
    - a Go [string] is a [string] (a sequence of 8-bit characters), a
      [[]byte] is a [list byte];
    - a Go [error] result is an [option error], [None] being [nil];
    - a nilable pointer or interface result is an [option];
    - the adapter is an interface: a type class over the adapter's state,
      every call returning the adapter's next state next to its result;
    - a store holds its adapter, so a method returns the store it leaves
      behind next to its Go results. *)

From Stdlib Require Import Strings.String Strings.Ascii Strings.Byte.
From Stdlib Require Import List Bool ZArith Lia DecimalString.
Import ListNotations.
Local Open Scope string_scope.
Local Open Scope list_scope.

(* ================================================================== *)
(** * Values crossing the adapter interface *)
(* ================================================================== *)

(** Go's [error]. [ErrNoRows] is [pgadapter.ErrNoRows], the adapter's
    distinguished "no rows" value; every other failure is an opaque
    message. *)
Inductive error : Type :=
| ErrNoRows
| errorString (msg : string).

(** The [interface{}] values the stores hand to the adapter or the
    logger. *)
Inductive iface : Type :=
| VString (s : string)
| VBytes (b : list byte)
| VInt (n : Z)
| VError (e : error).

(** [ClientStoreItem]: one row of the client table. *)
Record ClientStoreItem : Type := {
  ID : string;      (* db:"id" *)
  Secret : string;  (* db:"secret" *)
  Domain : string;  (* db:"domain" *)
  Data : list byte  (* db:"data" *)
}.

(** The zero value of [var item ClientStoreItem]. *)
Definition zeroClientStoreItem : ClientStoreItem :=
  {| ID := ""; Secret := ""; Domain := ""; Data := [] |}.

(** [fmt.Sprintf] for the formats of this package: one string operand,
    referred to by [%s] or by [%[1]s]; every other character is copied. *)
Fixpoint Sprintf (format operand : string) : string :=
  match format with
  | EmptyString => EmptyString
  | String c rest =>
      if Ascii.eqb c "%" then
        match rest with
        | String c1 rest1 =>
            if Ascii.eqb c1 "s" then (operand ++ Sprintf rest1 operand)%string
            else if Ascii.eqb c1 "[" then
              match rest1 with
              | String c2 (String c3 (String c4 rest4)) =>
                  if (Ascii.eqb c2 "1" && Ascii.eqb c3 "]" && Ascii.eqb c4 "s")%bool
                  then (operand ++ Sprintf rest4 operand)%string
                  else String c (Sprintf rest operand)
              | _ => String c (Sprintf rest operand)
              end
            else String c (Sprintf rest operand)
        | EmptyString => String c EmptyString
        end
      else String c (Sprintf rest operand)
  end.

(** The line feed of Go's raw string literals. *)
Definition nl : string := String (ascii_of_nat 10) EmptyString.

(** [strings.Index]: position of the first occurrence of [substr] in [s],
    or -1. *)
Definition strings_Index (s substr : string) : Z :=
  match String.index 0 substr s with
  | Some n => Z.of_nat n
  | None => (-1)%Z
  end.

(* ================================================================== *)
(** * External collaborators: domain models, JSON, adapter, logger *)
(* ================================================================== *)

(** [oauth2.ClientInfo] and [oauth2.TokenInfo]: the getters the stores
    and the test scenarios call. *)
Class ClientInfo (I : Type) : Type := {
  GetID : I -> string;
  GetSecret : I -> string;
  GetDomain : I -> string;
  GetUserID : I -> string
}.

Class TokenInfo (I : Type) : Type := {
  GetCode : I -> string;
  GetCodeCreateAt : I -> Z;
  GetCodeExpiresIn : I -> Z;
  GetAccess : I -> string;
  GetAccessCreateAt : I -> Z;
  GetAccessExpiresIn : I -> Z;
  GetRefresh : I -> string;
  GetRefreshCreateAt : I -> Z;
  GetRefreshExpiresIn : I -> Z
}.

(** Package [models]: the concrete client and token the stores decode
    into. Times and durations are integers (nanoseconds). *)
Module models.

Record Client : Type := {
  ID : string;
  Secret : string;
  Domain : string;
  UserID : string
}.

Definition zeroClient : Client :=
  {| ID := ""; Secret := ""; Domain := ""; UserID := "" |}.

Record Token : Type := {
  Code : string;
  CodeCreateAt : Z;
  CodeExpiresIn : Z;
  Access : string;
  AccessCreateAt : Z;
  AccessExpiresIn : Z;
  Refresh : string;
  RefreshCreateAt : Z;
  RefreshExpiresIn : Z
}.

(** [models.NewToken()]. *)
Definition NewToken : Token :=
  {| Code := ""; CodeCreateAt := 0; CodeExpiresIn := 0;
     Access := ""; AccessCreateAt := 0; AccessExpiresIn := 0;
     Refresh := ""; RefreshCreateAt := 0; RefreshExpiresIn := 0 |}.

Definition SetCode (t : Token) (code : string) : Token :=
  {| Code := code; CodeCreateAt := CodeCreateAt t; CodeExpiresIn := CodeExpiresIn t;
     Access := Access t; AccessCreateAt := AccessCreateAt t; AccessExpiresIn := AccessExpiresIn t;
     Refresh := Refresh t; RefreshCreateAt := RefreshCreateAt t;
     RefreshExpiresIn := RefreshExpiresIn t |}.

Definition SetCodeCreateAt (t : Token) (at_ : Z) : Token :=
  {| Code := Code t; CodeCreateAt := at_; CodeExpiresIn := CodeExpiresIn t;
     Access := Access t; AccessCreateAt := AccessCreateAt t; AccessExpiresIn := AccessExpiresIn t;
     Refresh := Refresh t; RefreshCreateAt := RefreshCreateAt t;
     RefreshExpiresIn := RefreshExpiresIn t |}.

Definition SetCodeExpiresIn (t : Token) (d : Z) : Token :=
  {| Code := Code t; CodeCreateAt := CodeCreateAt t; CodeExpiresIn := d;
     Access := Access t; AccessCreateAt := AccessCreateAt t; AccessExpiresIn := AccessExpiresIn t;
     Refresh := Refresh t; RefreshCreateAt := RefreshCreateAt t;
     RefreshExpiresIn := RefreshExpiresIn t |}.

End models.

#[export] Instance Client_ClientInfo : ClientInfo models.Client := {
  GetID := models.ID;
  GetSecret := models.Secret;
  GetDomain := models.Domain;
  GetUserID := models.UserID
}.

#[export] Instance Token_TokenInfo : TokenInfo models.Token := {
  GetCode := models.Code;
  GetCodeCreateAt := models.CodeCreateAt;
  GetCodeExpiresIn := models.CodeExpiresIn;
  GetAccess := models.Access;
  GetAccessCreateAt := models.AccessCreateAt;
  GetAccessExpiresIn := models.AccessExpiresIn;
  GetRefresh := models.Refresh;
  GetRefreshCreateAt := models.RefreshCreateAt;
  GetRefreshExpiresIn := models.RefreshExpiresIn
}.

(** [jsoniter.Marshal] and [jsoniter.Unmarshal], an external library:
    [Marshal] of a value of the interface type [I] returns the bytes and
    the error; [Unmarshal] into a fresh [T] returns what the destination
    holds afterwards and the error. *)
Class Jsoniter (I T : Type) : Type := {
  Marshal : I -> list byte * option error;
  Unmarshal : list byte -> T * option error
}.

(** Modelled from the spec: [TokenStoreItem], one row of the token
    table, is declared in token_store.go, which is not among the sources;
    the columns are those of the "Token Record" of the data model. *)
Record TokenStoreItem : Type := {
  tokID : Z;
  tokCode : string;
  tokCodeCreatedAt : Z;
  tokCodeExpiresIn : Z;
  tokAccess : string;
  tokAccessCreatedAt : Z;
  tokAccessExpiresIn : Z;
  tokRefresh : string;
  tokRefreshCreatedAt : Z;
  tokRefreshExpiresIn : Z;
  tokData : list byte
}.

(** Modelled from the spec: the zero value of the missing
    [TokenStoreItem], "empty/zero rather than null". *)
Definition zeroTokenStoreItem : TokenStoreItem :=
  {| tokID := 0; tokCode := ""; tokCodeCreatedAt := 0; tokCodeExpiresIn := 0;
     tokAccess := ""; tokAccessCreatedAt := 0; tokAccessExpiresIn := 0;
     tokRefresh := ""; tokRefreshCreatedAt := 0; tokRefreshExpiresIn := 0;
     tokData := [] |}.

(** The destination record of [SelectOne], a [dst interface{}] pointing
    at one of the two item structs. *)
Inductive dest : Type :=
| ClientDest (item : ClientStoreItem)
| TokenDest (item : TokenStoreItem).

(** [pgadapter.Adapter]: the two capabilities the stores are written
    against. [Exec] returns the error; [SelectOne] returns the destination
    as the call leaves it and the error. *)
Class Adapter (A : Type) : Type := {
  Exec : A -> string -> list iface -> option error * A;
  SelectOne : A -> dest -> string -> list iface -> (dest * option error) * A
}.

(** The [Logger] sink: [Printf(format, v...)]. A logger is what it has
    been asked to print so far, as the tests' [memoryLogger] keeps it;
    [prefix] tells the sinks apart. *)
Record Logger : Type := {
  prefix : string;
  formats : list string;
  logArgs : list (list iface)
}.

Definition Printf (l : Logger) (format : string) (v : list iface) : Logger :=
  {| prefix := prefix l;
     formats := formats l ++ [format];
     logArgs := logArgs l ++ [v] |}.

(** [log.New(os.Stderr, prefix, log.LstdFlags)]. *)
Definition log_New (prefix : string) : Logger :=
  {| prefix := prefix; formats := []; logArgs := [] |}.

(* ================================================================== *)
(** * The mock adapter of the tests *)
(* ================================================================== *)

Record queryCall : Type := {
  query : string;
  args : list iface
}.

(** [mockAdapter]: records every call, then answers through the callback
    when one is set and with [nil] otherwise. A callback is a Go closure:
    [St] is the state it captures. *)
Record mockAdapter (St : Type) : Type := {
  execCalls : list queryCall;
  selectOneCalls : list queryCall;
  execCallback : option (St -> string -> list iface -> option error * St);
  selectCallback :
    option (St -> dest -> string -> list iface -> (dest * option error) * St);
  captured : St
}.

Arguments execCalls {St} _.
Arguments selectOneCalls {St} _.
Arguments execCallback {St} _.
Arguments selectCallback {St} _.
Arguments captured {St} _.

Definition mockAdapter_Exec {St} (a : mockAdapter St) (q : string) (v : list iface)
  : option error * mockAdapter St :=
  let calls := execCalls a ++ [{| query := q; args := v |}] in
  match execCallback a with
  | Some cb =>
      let (err, st) := cb (captured a) q v in
      (err, {| execCalls := calls; selectOneCalls := selectOneCalls a;
               execCallback := execCallback a; selectCallback := selectCallback a;
               captured := st |})
  | None =>
      (None, {| execCalls := calls; selectOneCalls := selectOneCalls a;
                execCallback := execCallback a; selectCallback := selectCallback a;
                captured := captured a |})
  end.

Definition mockAdapter_SelectOne {St} (a : mockAdapter St) (dst : dest) (q : string)
  (v : list iface) : (dest * option error) * mockAdapter St :=
  let calls := selectOneCalls a ++ [{| query := q; args := v |}] in
  match selectCallback a with
  | Some cb =>
      let (r, st) := cb (captured a) dst q v in
      (r, {| execCalls := execCalls a; selectOneCalls := calls;
             execCallback := execCallback a; selectCallback := selectCallback a;
             captured := st |})
  | None =>
      ((dst, None),
       {| execCalls := execCalls a; selectOneCalls := calls;
          execCallback := execCallback a; selectCallback := selectCallback a;
          captured := captured a |})
  end.

#[export] Instance mockAdapter_Adapter {St} : Adapter (mockAdapter St) := {
  Exec := mockAdapter_Exec;
  SelectOne := mockAdapter_SelectOne
}.

(** [new(mockAdapter)]: no call yet, no callback. *)
Definition new_mockAdapter : mockAdapter unit :=
  {| execCalls := []; selectOneCalls := [];
     execCallback := None; selectCallback := None; captured := tt |}.

(** A mock that answers as the adapter [a] would: its callbacks are the
    capabilities of [a], which they capture. Every adapter is recorded
    this way. *)
Definition recording {A} {AD : Adapter A} (a : A) : mockAdapter A :=
  {| execCalls := []; selectOneCalls := [];
     execCallback := Some Exec; selectCallback := Some SelectOne;
     captured := a |}.

(* ================================================================== *)
(** * client_store.go *)
(* ================================================================== *)

(** [ClientStore]: PostgreSQL client store. *)
Record ClientStore (A : Type) : Type := {
  adapter : A;
  tableName : string;
  logger : Logger;
  initTableDisabled : bool
}.

Arguments adapter {A} _.
Arguments tableName {A} _.
Arguments logger {A} _.
Arguments initTableDisabled {A} _.

(** The store after a call on [s.adapter] has left the adapter as [a]. *)
Definition withAdapter {A} (s : ClientStore A) (a : A) : ClientStore A :=
  {| adapter := a; tableName := tableName s; logger := logger s;
     initTableDisabled := initTableDisabled s |}.

(** Modelled from the spec: [ClientStoreOption], a function that
    configures the store, is declared in the options file, which is not
    among the sources; the client store's configuration surface is "table
    name, disable table init, logger", and the tests call
    [WithClientStoreTableName] and [WithClientStoreLogger]. *)
Inductive ClientStoreOption : Type :=
| WithClientStoreTableName (name : string)
| WithClientStoreLogger (l : Logger)
| WithClientStoreInitTableDisabled.

(** Modelled from the spec: [o(store)], what each option of the missing
    options file sets in the store. *)
Definition applyClientStoreOption {A} (store : ClientStore A) (o : ClientStoreOption)
  : ClientStore A :=
  match o with
  | WithClientStoreTableName name =>
      {| adapter := adapter store; tableName := name; logger := logger store;
         initTableDisabled := initTableDisabled store |}
  | WithClientStoreLogger l =>
      {| adapter := adapter store; tableName := tableName store; logger := l;
         initTableDisabled := initTableDisabled store |}
  | WithClientStoreInitTableDisabled =>
      {| adapter := adapter store; tableName := tableName store; logger := logger store;
         initTableDisabled := true |}
  end.

(** The statement of [initTable], a raw string literal that starts and
    ends with a line feed. *)
Definition clientTableFormat : string :=
  (nl ++ "CREATE TABLE IF NOT EXISTS %[1]s (" ++ nl
      ++ "  id     TEXT  NOT NULL," ++ nl
      ++ "  secret TEXT  NOT NULL," ++ nl
      ++ "  domain TEXT  NOT NULL," ++ nl
      ++ "  data   JSONB NOT NULL," ++ nl
      ++ "  CONSTRAINT %[1]s_pkey PRIMARY KEY (id)" ++ nl
      ++ ");" ++ nl)%string.

Definition clientSelectFormat : string := "SELECT * FROM %s WHERE id = $1".

Definition clientInsertFormat : string :=
  "INSERT INTO %s (id, secret, domain, data) VALUES ($1, $2, $3, $4)".

Section ClientStoreMethods.

Context {A : Type} {AD : Adapter A}.

(** [ClientStore.initTable() error]. *)
Definition initTable (s : ClientStore A) : option error * ClientStore A :=
  let (err, a) := Exec (adapter s) (Sprintf clientTableFormat (tableName s)) [] in
  (err, withAdapter s a).

(** The configured store of [NewClientStore]: the defaults, then every
    option in order. *)
Definition configuredClientStore (adapter : A) (options : list ClientStoreOption)
  : ClientStore A :=
  let store :=
    {| adapter := adapter;
       tableName := "oauth2_clients";
       logger := log_New "[OAUTH2-PG-ERROR]";
       initTableDisabled := false |} in
  fold_left applyClientStoreOption options store.

(** [func NewClientStore(adapter, options...)], returning the store
    pointer and the error. *)
Definition NewClientStore (adapter : A) (options : list ClientStoreOption)
  : option (ClientStore A) * option error :=
  let store := configuredClientStore adapter options in
  let (err, store) :=
    if negb (initTableDisabled store) then initTable store else (None, store) in
  match err with
  | Some _ => (Some store, err)
  | None => (Some store, err)
  end.

Context {I : Type} {CI : ClientInfo I} {JS : Jsoniter I models.Client}.

(** [ClientStore.toClientInfo(data) (oauth2.ClientInfo, error)]: the
    pointer to [cm] is returned whatever the error. *)
Definition toClientInfo (s : ClientStore A) (data : list byte)
  : option models.Client * option error :=
  let (cm, err) := Unmarshal (I := I) data in
  (Some cm, err).

(** [ClientStore.GetByID(id) (oauth2.ClientInfo, error)]. *)
Definition GetByID (s : ClientStore A) (id : string)
  : (option models.Client * option error) * ClientStore A :=
  if String.eqb id "" then ((None, None), s)
  else
    let item := zeroClientStoreItem in
    let '((dst, err), a) :=
      SelectOne (adapter s) (ClientDest item)
        (Sprintf clientSelectFormat (tableName s)) [VString id] in
    let item := match dst with ClientDest it => it | TokenDest _ => item end in
    match err with
    | Some _ => ((None, err), withAdapter s a)
    | None => (toClientInfo s (Data item), withAdapter s a)
    end.

(** [ClientStore.Create(info) error]. *)
Definition Create (s : ClientStore A) (info : I) : option error * ClientStore A :=
  let (data, err) := Marshal (T := models.Client) info in
  match err with
  | Some _ => (err, s)
  | None =>
      let (err, a) :=
        Exec (adapter s) (Sprintf clientInsertFormat (tableName s))
          [VString (GetID info); VString (GetSecret info);
           VString (GetDomain info); VBytes data] in
      (err, withAdapter s a)
  end.

End ClientStoreMethods.

(* ================================================================== *)
(** * The token store *)
(* ================================================================== *)

(** token_store.go and the options file are not among the sources: only
    the tests that drive the token store are. The definitions of this
    module follow the specification's component design (Token Store, GC
    Scheduler), with the statement texts shaped like the client store's
    over the columns of the specification's schema. The scheduler is
    followed tick by tick: its timer and its background task are not
    modelled. *)
Module tokenstore.

(** Modelled from the spec: the GC Scheduler's states, "Stopped
    (initial, also terminal after Close), Running". *)
Inductive gcState : Type :=
| Stopped
| Running.

(** Modelled from the spec: the token store record of token_store.go,
    which is missing; its fields are the recognized options of the
    construction, the adapter and the scheduler's state. *)
Record TokenStore (A : Type) : Type := {
  adapter : A;
  tableName : string;
  logger : Logger;
  gcDisabled : bool;
  gcInterval : Z;
  initTableDisabled : bool;
  gc : gcState
}.

Arguments adapter {A} _.
Arguments tableName {A} _.
Arguments logger {A} _.
Arguments gcDisabled {A} _.
Arguments gcInterval {A} _.
Arguments initTableDisabled {A} _.
Arguments gc {A} _.

(** Modelled from the spec: the stores the methods of the missing
    token_store.go leave behind, one field of [s] replaced. *)
Definition withAdapter {A} (s : TokenStore A) (a : A) : TokenStore A :=
  {| adapter := a; tableName := tableName s; logger := logger s;
     gcDisabled := gcDisabled s; gcInterval := gcInterval s;
     initTableDisabled := initTableDisabled s; gc := gc s |}.

(** Modelled from the spec: [s] with another logger (missing
    token_store.go). *)
Definition withLogger {A} (s : TokenStore A) (l : Logger) : TokenStore A :=
  {| adapter := adapter s; tableName := tableName s; logger := l;
     gcDisabled := gcDisabled s; gcInterval := gcInterval s;
     initTableDisabled := initTableDisabled s; gc := gc s |}.

(** Modelled from the spec: [s] with its scheduler in state [g] (missing
    token_store.go). *)
Definition withGC {A} (s : TokenStore A) (g : gcState) : TokenStore A :=
  {| adapter := adapter s; tableName := tableName s; logger := logger s;
     gcDisabled := gcDisabled s; gcInterval := gcInterval s;
     initTableDisabled := initTableDisabled s; gc := g |}.

(** Modelled from the spec: the options of the token store, which the
    missing options file declares: "table name override, disable
    automatic table creation, disable the background GC loop, GC interval
    override, logger override"; the tests name them. *)
Inductive TokenStoreOption : Type :=
| WithTokenStoreTableName (name : string)
| WithTokenStoreLogger (l : Logger)
| WithTokenStoreInitTableDisabled
| WithTokenStoreGCDisabled
| WithTokenStoreGCInterval (d : Z).

(** Modelled from the spec: what each option of the missing options file
    sets in the store. *)
Definition applyTokenStoreOption {A} (s : TokenStore A) (o : TokenStoreOption)
  : TokenStore A :=
  match o with
  | WithTokenStoreTableName name =>
      {| adapter := adapter s; tableName := name; logger := logger s;
         gcDisabled := gcDisabled s; gcInterval := gcInterval s;
         initTableDisabled := initTableDisabled s; gc := gc s |}
  | WithTokenStoreLogger l => withLogger s l
  | WithTokenStoreInitTableDisabled =>
      {| adapter := adapter s; tableName := tableName s; logger := logger s;
         gcDisabled := gcDisabled s; gcInterval := gcInterval s;
         initTableDisabled := true; gc := gc s |}
  | WithTokenStoreGCDisabled =>
      {| adapter := adapter s; tableName := tableName s; logger := logger s;
         gcDisabled := true; gcInterval := gcInterval s;
         initTableDisabled := initTableDisabled s; gc := gc s |}
  | WithTokenStoreGCInterval d =>
      {| adapter := adapter s; tableName := tableName s; logger := logger s;
         gcDisabled := gcDisabled s; gcInterval := d;
         initTableDisabled := initTableDisabled s; gc := gc s |}
  end.

(** Modelled from the spec: the statements of the missing
    token_store.go. The specification fixes the columns (schema of the
    token table) and what each statement does, not its text nor the
    column types: the texts are shaped like the client store's, and the
    tests fix where "CREATE TABLE IF NOT EXISTS" and "DELETE FROM" stand in
    them. *)
Definition tokenTableFormat : string :=
  (nl ++ "CREATE TABLE IF NOT EXISTS %[1]s (" ++ nl
      ++ "  id                 BIGSERIAL NOT NULL," ++ nl
      ++ "  code               TEXT      NOT NULL," ++ nl
      ++ "  code_created_at    BIGINT    NOT NULL," ++ nl
      ++ "  code_expires_in    BIGINT    NOT NULL," ++ nl
      ++ "  access             TEXT      NOT NULL," ++ nl
      ++ "  access_created_at  BIGINT    NOT NULL," ++ nl
      ++ "  access_expires_in  BIGINT    NOT NULL," ++ nl
      ++ "  refresh            TEXT      NOT NULL," ++ nl
      ++ "  refresh_created_at BIGINT    NOT NULL," ++ nl
      ++ "  refresh_expires_in BIGINT    NOT NULL," ++ nl
      ++ "  data               JSONB     NOT NULL," ++ nl
      ++ "  CONSTRAINT %[1]s_pkey PRIMARY KEY (id)" ++ nl
      ++ ");" ++ nl)%string.

(** Modelled from the spec: the insert of the missing token_store.go,
    "one row with all three sub-token columns populated ... plus the
    serialized payload". *)
Definition tokenInsertColumns : string :=
  (" (code, code_created_at, code_expires_in, "
     ++ "access, access_created_at, access_expires_in, "
     ++ "refresh, refresh_created_at, refresh_expires_in, data) "
     ++ "VALUES ($1, $2, $3, $4, $5, $6, $7, $8, $9, $10)")%string.

(** Modelled from the spec: the insert statement (missing
    token_store.go). *)
Definition tokenInsertFormat : string :=
  ("INSERT INTO %s" ++ tokenInsertColumns)%string.

(** Modelled from the spec: the look-ups of the missing token_store.go,
    "selects one row by the given column". *)
Definition selectByCodeFormat : string := "SELECT * FROM %s WHERE code = $1".

(** Modelled from the spec: the look-up by access token. *)
Definition selectByAccessFormat : string := "SELECT * FROM %s WHERE access = $1".

(** Modelled from the spec: the look-up by refresh token. *)
Definition selectByRefreshFormat : string := "SELECT * FROM %s WHERE refresh = $1".

(** Modelled from the spec: the removals of the missing token_store.go,
    "deletes all rows matching the given sub-token column value". *)
Definition deleteByCodeFormat : string := "DELETE FROM %s WHERE code = $1".

(** Modelled from the spec: the removal by access token. *)
Definition deleteByAccessFormat : string := "DELETE FROM %s WHERE access = $1".

(** Modelled from the spec: the removal by refresh token. *)
Definition deleteByRefreshFormat : string := "DELETE FROM %s WHERE refresh = $1".

(** Modelled from the spec: the statement of a GC pass of the missing
    token_store.go, "one delete statement selecting rows where every
    populated sub-token's expiry has elapsed, using the database's own
    clock"; [now_ns()] stands for that clock. *)
Definition gcFormat : string :=
  ("DELETE FROM %s WHERE "
     ++ "(code = '' OR code_created_at + code_expires_in <= now_ns()) AND "
     ++ "(access = '' OR access_created_at + access_expires_in <= now_ns()) AND "
     ++ "(refresh = '' OR refresh_created_at + refresh_expires_in <= now_ns())")%string.

(** Modelled from the spec: the "formatted message" of a failed GC pass;
    its text is not fixed by the specification. *)
Definition gcErrorFormat : string :=
  "Error while cleaning out outdated entities: %+v".

Section TokenStoreMethods.

Context {A : Type} {AD : Adapter A}.

(** Modelled from the spec: "issues a single idempotent create table
    if not exists statement with the fixed schema". *)
Definition initTable (s : TokenStore A) : option error * TokenStore A :=
  let (err, a) := Exec (adapter s) (Sprintf tokenTableFormat (tableName s)) [] in
  (err, withAdapter s a).

(** Modelled from the spec: the configured store of the missing
    [NewTokenStore], the defaults ("a fixed name", "a multi-minute
    interval", neither given by the specification), then every option in
    order. *)
Definition configuredTokenStore (adapter : A) (options : list TokenStoreOption)
  : TokenStore A :=
  let store :=
    {| adapter := adapter;
       tableName := "oauth2_tokens";
       logger := log_New "[OAUTH2-PG-ERROR]";
       gcDisabled := false;
       gcInterval := 600000000000;
       initTableDisabled := false;
       gc := Stopped |} in
  fold_left applyTokenStoreOption options store.

(** Modelled from the spec: the construction of the Token Store. "On
    construction, unless disabled, issues a single ... statement.
    Construction fails with a StoreInitError if this statement fails;
    the returned store object is still usable. Unless GC is disabled,
    construction starts the GC Scheduler." *)
Definition NewTokenStore (adapter : A) (options : list TokenStoreOption)
  : option (TokenStore A) * option error :=
  let store := configuredTokenStore adapter options in
  let (err, store) :=
    if negb (initTableDisabled store) then initTable store else (None, store) in
  let store := if negb (gcDisabled store) then withGC store Running else store in
  (Some store, err).

(** Modelled from the spec: "Close(): stops the GC Scheduler (if
    running) ... Does not close the underlying adapter". *)
Definition Close (s : TokenStore A) : option error * TokenStore A :=
  (None, withGC s Stopped).

(** Modelled from the spec: one tick of the GC Scheduler. "On each tick
    while Running: issue one delete statement ... If the delete
    statement fails, the error is reported to the configured logger
    (formatted message plus the failing error) and the loop continues
    to the next tick". A tick returns nothing to anyone: only the store
    it leaves behind. *)
Definition clean (s : TokenStore A) : TokenStore A :=
  let (err, a) := Exec (adapter s) (Sprintf gcFormat (tableName s)) [] in
  let s := withAdapter s a in
  match err with
  | Some e => withLogger s (Printf (logger s) gcErrorFormat [VError e])
  | None => s
  end.

(** Modelled from the spec: a tick of the timer, which makes a pass
    "while Running" and nothing once the scheduler is stopped. *)
Definition tick (s : TokenStore A) : TokenStore A :=
  match gc s with
  | Running => clean s
  | Stopped => s
  end.

(** Modelled from the spec: the GC loop of the missing token_store.go,
    over the first [n] ticks of its timer. *)
Fixpoint gcLoop (n : nat) (s : TokenStore A) : TokenStore A :=
  match n with
  | O => s
  | S n' => gcLoop n' (tick s)
  end.

Context {I : Type} {TI : TokenInfo I} {JS : Jsoniter I models.Token}.

(** Modelled from the spec: "deserializes the data payload into the
    token domain representation", as the client store's [toClientInfo]
    does (token_store.go is missing). *)
Definition toTokenInfo (s : TokenStore A) (data : list byte)
  : option models.Token * option error :=
  let (tm, err) := Unmarshal (I := I) data in
  (Some tm, err).

(** Modelled from the spec: "Create(token): serializes the token's full
    state and inserts one row with all three sub-token columns
    populated (empty fields written as empty/zero rather than null)
    plus the serialized payload". *)
Definition Create (s : TokenStore A) (info : I) : option error * TokenStore A :=
  let (data, err) := Marshal (T := models.Token) info in
  match err with
  | Some _ => (err, s)
  | None =>
      let (err, a) :=
        Exec (adapter s) (Sprintf tokenInsertFormat (tableName s))
          [VString (GetCode info); VInt (GetCodeCreateAt info);
           VInt (GetCodeExpiresIn info);
           VString (GetAccess info); VInt (GetAccessCreateAt info);
           VInt (GetAccessExpiresIn info);
           VString (GetRefresh info); VInt (GetRefreshCreateAt info);
           VInt (GetRefreshExpiresIn info);
           VBytes data] in
      (err, withAdapter s a)
  end.

(** Modelled from the spec: "deletes all rows matching the given
    sub-token column value. Succeeds (no error) even if zero rows
    matched": the adapter's "no rows" is not a failure of a removal. *)
Definition remove (format : string) (s : TokenStore A) (key : string)
  : option error * TokenStore A :=
  let (err, a) := Exec (adapter s) (Sprintf format (tableName s)) [VString key] in
  match err with
  | Some ErrNoRows => (None, withAdapter s a)
  | _ => (err, withAdapter s a)
  end.

(** Modelled from the spec: [RemoveByCode(code)]. *)
Definition RemoveByCode := remove deleteByCodeFormat.

(** Modelled from the spec: [RemoveByAccess(access)]. *)
Definition RemoveByAccess := remove deleteByAccessFormat.

(** Modelled from the spec: [RemoveByRefresh(refresh)]. *)
Definition RemoveByRefresh := remove deleteByRefreshFormat.

(** Modelled from the spec: "selects one row by the given column,
    deserializes the data payload into the token domain
    representation, returns it. Fails with NotFoundError when no row
    matches ... Passing an empty key string short-circuits to a no
    result, no error response". *)
Definition get (format : string) (s : TokenStore A) (key : string)
  : (option models.Token * option error) * TokenStore A :=
  if String.eqb key "" then ((None, None), s)
  else
    let item := zeroTokenStoreItem in
    let '((dst, err), a) :=
      SelectOne (adapter s) (TokenDest item)
        (Sprintf format (tableName s)) [VString key] in
    let item := match dst with TokenDest it => it | ClientDest _ => item end in
    match err with
    | Some _ => ((None, err), withAdapter s a)
    | None => (toTokenInfo s (tokData item), withAdapter s a)
    end.

(** Modelled from the spec: [GetByCode(code)]. *)
Definition GetByCode := get selectByCodeFormat.

(** Modelled from the spec: [GetByAccess(access)]. *)
Definition GetByAccess := get selectByAccessFormat.

(** Modelled from the spec: [GetByRefresh(refresh)]. *)
Definition GetByRefresh := get selectByRefreshFormat.

End TokenStoreMethods.

End tokenstore.

(* ================================================================== *)
(** * The database behind the adapter *)
(* ================================================================== *)

(** A PostgreSQL relation as the statements of the stores see it, for the
    scenarios that run the stores against a database. A statement is
    recognized by its text; a [JSONB] column stores what [jsonb] makes of
    the document and refuses what it cannot read. *)

(** The client relation: [id] is its primary key. *)
Record clientTable : Type := {
  relName : string;
  relExists : bool;
  rows : list ClientStoreItem;
  jsonb : list byte -> option (list byte)
}.

Definition clientRowHasID (id : string) (r : ClientStoreItem) : bool :=
  String.eqb (ID r) id.

Definition clientTable_Exec (t : clientTable) (q : string) (v : list iface)
  : option error * clientTable :=
  if String.eqb q (Sprintf clientTableFormat (relName t)) then
    (None, {| relName := relName t; relExists := true; rows := rows t;
              jsonb := jsonb t |})
  else if String.eqb q (Sprintf clientInsertFormat (relName t)) then
    if negb (relExists t) then (Some (errorString "relation does not exist"), t)
    else
      match v with
      | [VString id; VString secret; VString domain; VBytes data] =>
          match jsonb t data with
          | None => (Some (errorString "invalid input syntax for type json"), t)
          | Some stored =>
              if existsb (clientRowHasID id) (rows t) then
                (Some (errorString "duplicate key value violates unique constraint"), t)
              else
                (None,
                 {| relName := relName t; relExists := relExists t;
                    rows := rows t ++ [{| ID := id; Secret := secret;
                                          Domain := domain; Data := stored |}];
                    jsonb := jsonb t |})
          end
      | _ => (Some (errorString "wrong number or type of parameters"), t)
      end
  else (Some (errorString "syntax error"), t).

Definition clientTable_SelectOne (t : clientTable) (dst : dest) (q : string)
  (v : list iface) : (dest * option error) * clientTable :=
  if String.eqb q (Sprintf clientSelectFormat (relName t)) then
    if negb (relExists t) then ((dst, Some (errorString "relation does not exist")), t)
    else
      match v, dst with
      | [VString id], ClientDest _ =>
          match find (clientRowHasID id) (rows t) with
          | Some r => ((ClientDest r, None), t)
          | None => ((dst, Some ErrNoRows), t)
          end
      | _, _ => ((dst, Some (errorString "wrong parameters or destination")), t)
      end
  else ((dst, Some (errorString "syntax error")), t).

#[export] Instance clientTable_Adapter : Adapter clientTable := {
  Exec := clientTable_Exec;
  SelectOne := clientTable_SelectOne
}.

(** The token relation: [id] is a serial, so an insert never collides;
    [clock] is the database's own time. *)
Record tokenTable : Type := {
  tokRelName : string;
  tokRelExists : bool;
  tokRows : list TokenStoreItem;
  nextID : Z;
  clock : Z;
  tokJsonb : list byte -> option (list byte)
}.

Definition withTokRows (t : tokenTable) (rs : list TokenStoreItem) : tokenTable :=
  {| tokRelName := tokRelName t; tokRelExists := tokRelExists t; tokRows := rs;
     nextID := nextID t; clock := clock t; tokJsonb := tokJsonb t |}.

(** One sub-token of a row is out of the way of the GC when it is empty or
    its window has elapsed; a row is expired when all three are. *)
Definition subTokenExpired (now : Z) (key : string) (createdAt expiresIn : Z) : bool :=
  String.eqb key "" || (createdAt + expiresIn <=? now)%Z.

Definition rowExpired (now : Z) (r : TokenStoreItem) : bool :=
  subTokenExpired now (tokCode r) (tokCodeCreatedAt r) (tokCodeExpiresIn r)
  && subTokenExpired now (tokAccess r) (tokAccessCreatedAt r) (tokAccessExpiresIn r)
  && subTokenExpired now (tokRefresh r) (tokRefreshCreatedAt r) (tokRefreshExpiresIn r).

Definition tokenTable_delete (t : tokenTable) (col : TokenStoreItem -> string)
  (v : list iface) : option error * tokenTable :=
  if negb (tokRelExists t) then (Some (errorString "relation does not exist"), t)
  else
    match v with
    | [VString key] =>
        (None, withTokRows t (filter (fun r => negb (String.eqb (col r) key)) (tokRows t)))
    | _ => (Some (errorString "wrong number or type of parameters"), t)
    end.

Definition tokenTable_Exec (t : tokenTable) (q : string) (v : list iface)
  : option error * tokenTable :=
  let name := tokRelName t in
  if String.eqb q (Sprintf tokenstore.tokenTableFormat name) then
    (None, {| tokRelName := name; tokRelExists := true; tokRows := tokRows t;
              nextID := nextID t; clock := clock t; tokJsonb := tokJsonb t |})
  else if String.eqb q (Sprintf tokenstore.tokenInsertFormat name) then
    if negb (tokRelExists t) then (Some (errorString "relation does not exist"), t)
    else
      match v with
      | [VString code; VInt codeAt; VInt codeIn;
         VString access; VInt accessAt; VInt accessIn;
         VString refresh; VInt refreshAt; VInt refreshIn; VBytes data] =>
          match tokJsonb t data with
          | None => (Some (errorString "invalid input syntax for type json"), t)
          | Some stored =>
              (None,
               {| tokRelName := name; tokRelExists := tokRelExists t;
                  tokRows := tokRows t ++
                    [{| tokID := nextID t;
                        tokCode := code; tokCodeCreatedAt := codeAt;
                        tokCodeExpiresIn := codeIn;
                        tokAccess := access; tokAccessCreatedAt := accessAt;
                        tokAccessExpiresIn := accessIn;
                        tokRefresh := refresh; tokRefreshCreatedAt := refreshAt;
                        tokRefreshExpiresIn := refreshIn;
                        tokData := stored |}];
                  nextID := (nextID t + 1)%Z; clock := clock t;
                  tokJsonb := tokJsonb t |})
          end
      | _ => (Some (errorString "wrong number or type of parameters"), t)
      end
  else if String.eqb q (Sprintf tokenstore.deleteByCodeFormat name) then
    tokenTable_delete t tokCode v
  else if String.eqb q (Sprintf tokenstore.deleteByAccessFormat name) then
    tokenTable_delete t tokAccess v
  else if String.eqb q (Sprintf tokenstore.deleteByRefreshFormat name) then
    tokenTable_delete t tokRefresh v
  else if String.eqb q (Sprintf tokenstore.gcFormat name) then
    if negb (tokRelExists t) then (Some (errorString "relation does not exist"), t)
    else (None, withTokRows t (filter (fun r => negb (rowExpired (clock t) r)) (tokRows t)))
  else (Some (errorString "syntax error"), t).

Definition tokenTable_select (t : tokenTable) (col : TokenStoreItem -> string)
  (dst : dest) (v : list iface) : (dest * option error) * tokenTable :=
  if negb (tokRelExists t) then ((dst, Some (errorString "relation does not exist")), t)
  else
    match v, dst with
    | [VString key], TokenDest _ =>
        match find (fun r => String.eqb (col r) key) (tokRows t) with
        | Some r => ((TokenDest r, None), t)
        | None => ((dst, Some ErrNoRows), t)
        end
    | _, _ => ((dst, Some (errorString "wrong parameters or destination")), t)
    end.

Definition tokenTable_SelectOne (t : tokenTable) (dst : dest) (q : string)
  (v : list iface) : (dest * option error) * tokenTable :=
  let name := tokRelName t in
  if String.eqb q (Sprintf tokenstore.selectByCodeFormat name) then
    tokenTable_select t tokCode dst v
  else if String.eqb q (Sprintf tokenstore.selectByAccessFormat name) then
    tokenTable_select t tokAccess dst v
  else if String.eqb q (Sprintf tokenstore.selectByRefreshFormat name) then
    tokenTable_select t tokRefresh dst v
  else ((dst, Some (errorString "syntax error")), t).

#[export] Instance tokenTable_Adapter : Adapter tokenTable := {
  Exec := tokenTable_Exec;
  SelectOne := tokenTable_SelectOne
}.

(* ================================================================== *)
(** * A JSON codec to run the scenarios with *)
(* ================================================================== *)

(** jsoniter is an external library and the stores are generic in it (the
    class [Jsoniter]). To run the scenarios of the tests, [plainjson]
    writes a model as a JSON object, the fields in declaration order,
    strings with the quote and the backslash escaped, integers in decimal,
    and reads back what it writes. *)
Module plainjson.

Definition dq : ascii := ascii_of_nat 34.
Definition backslash : ascii := ascii_of_nat 92.

Fixpoint escape (s : string) : string :=
  match s with
  | EmptyString => EmptyString
  | String c rest =>
      if (Ascii.eqb c dq || Ascii.eqb c backslash)%bool
      then String backslash (String c (escape rest))
      else String c (escape rest)
  end.

Definition quote (s : string) : string :=
  String dq (escape s ++ String dq EmptyString)%string.

Definition number (z : Z) : string := NilZero.string_of_int (Z.to_int z).

Definition field (name value : string) : string :=
  (quote name ++ ":" ++ value)%string.

(** Readers: each consumes a prefix of the input and returns what it
    read with the rest. *)
Definition expect (lit s : string) : option string :=
  if String.prefix lit s
  then Some (String.substring (String.length lit)
               (String.length s - String.length lit) s)
  else None.

(** The body of a string, the opening quote already read. *)
Fixpoint readQuoted (s : string) : option (string * string) :=
  match s with
  | EmptyString => None
  | String c rest =>
      if Ascii.eqb c dq then Some (EmptyString, rest)
      else if Ascii.eqb c backslash then
        match rest with
        | String c' rest' =>
            match readQuoted rest' with
            | Some (body, tl) => Some (String c' body, tl)
            | None => None
            end
        | EmptyString => None
        end
      else
        match readQuoted rest with
        | Some (body, tl) => Some (String c body, tl)
        | None => None
        end
  end.

Fixpoint readToken (s : string) : string * string :=
  match s with
  | EmptyString => (EmptyString, EmptyString)
  | String c rest =>
      if (Ascii.eqb c "," || Ascii.eqb c "}")%bool then (EmptyString, s)
      else let (tok, tl) := readToken rest in (String c tok, tl)
  end.

Definition readNumber (s : string) : option (Z * string) :=
  let (tok, tl) := readToken s in
  match NilZero.int_of_string tok with
  | Some i => Some (Z.of_int i, tl)
  | None => None
  end.

Definition readStringField (name s : string) : option (string * string) :=
  match expect (field name (String dq EmptyString)) s with
  | Some tl => readQuoted tl
  | None => None
  end.

Definition readNumberField (name s : string) : option (Z * string) :=
  match expect (field name EmptyString) s with
  | Some tl => readNumber tl
  | None => None
  end.

Notation "'let*' p ':=' c 'in' k" :=
  (match c with Some p => k | None => None end)
    (at level 10, p pattern, c at level 100, k at level 200, only parsing).

Definition writeClient (c : models.Client) : string :=
  ("{" ++ field "ID" (quote (models.ID c))
     ++ "," ++ field "Secret" (quote (models.Secret c))
     ++ "," ++ field "Domain" (quote (models.Domain c))
     ++ "," ++ field "UserID" (quote (models.UserID c)) ++ "}")%string.

Definition readClient (s : string) : option models.Client :=
  let* s := expect "{" s in
  let* (id, s) := readStringField "ID" s in
  let* s := expect "," s in
  let* (secret, s) := readStringField "Secret" s in
  let* s := expect "," s in
  let* (domain, s) := readStringField "Domain" s in
  let* s := expect "," s in
  let* (userID, s) := readStringField "UserID" s in
  if String.eqb s "}" then
    Some {| models.ID := id; models.Secret := secret;
            models.Domain := domain; models.UserID := userID |}
  else None.

Definition writeToken (t : models.Token) : string :=
  ("{" ++ field "Code" (quote (models.Code t))
     ++ "," ++ field "CodeCreateAt" (number (models.CodeCreateAt t))
     ++ "," ++ field "CodeExpiresIn" (number (models.CodeExpiresIn t))
     ++ "," ++ field "Access" (quote (models.Access t))
     ++ "," ++ field "AccessCreateAt" (number (models.AccessCreateAt t))
     ++ "," ++ field "AccessExpiresIn" (number (models.AccessExpiresIn t))
     ++ "," ++ field "Refresh" (quote (models.Refresh t))
     ++ "," ++ field "RefreshCreateAt" (number (models.RefreshCreateAt t))
     ++ "," ++ field "RefreshExpiresIn" (number (models.RefreshExpiresIn t))
     ++ "}")%string.

Definition readToken_ (s : string) : option models.Token :=
  let* s := expect "{" s in
  let* (code, s) := readStringField "Code" s in
  let* s := expect "," s in
  let* (codeAt, s) := readNumberField "CodeCreateAt" s in
  let* s := expect "," s in
  let* (codeIn, s) := readNumberField "CodeExpiresIn" s in
  let* s := expect "," s in
  let* (access, s) := readStringField "Access" s in
  let* s := expect "," s in
  let* (accessAt, s) := readNumberField "AccessCreateAt" s in
  let* s := expect "," s in
  let* (accessIn, s) := readNumberField "AccessExpiresIn" s in
  let* s := expect "," s in
  let* (refresh, s) := readStringField "Refresh" s in
  let* s := expect "," s in
  let* (refreshAt, s) := readNumberField "RefreshCreateAt" s in
  let* s := expect "," s in
  let* (refreshIn, s) := readNumberField "RefreshExpiresIn" s in
  if String.eqb s "}" then
    Some {| models.Code := code; models.CodeCreateAt := codeAt;
            models.CodeExpiresIn := codeIn;
            models.Access := access; models.AccessCreateAt := accessAt;
            models.AccessExpiresIn := accessIn;
            models.Refresh := refresh; models.RefreshCreateAt := refreshAt;
            models.RefreshExpiresIn := refreshIn |}
  else None.

Definition MarshalClient (c : models.Client) : list byte * option error :=
  (list_byte_of_string (writeClient c), None).

Definition UnmarshalClient (data : list byte) : models.Client * option error :=
  match readClient (string_of_list_byte data) with
  | Some c => (c, None)
  | None => (models.zeroClient, Some (errorString "invalid JSON document"))
  end.

Definition MarshalToken (t : models.Token) : list byte * option error :=
  (list_byte_of_string (writeToken t), None).

Definition UnmarshalToken (data : list byte) : models.Token * option error :=
  match readToken_ (string_of_list_byte data) with
  | Some t => (t, None)
  | None => (models.NewToken, Some (errorString "invalid JSON document"))
  end.

Definition clientCodec : Jsoniter models.Client models.Client :=
  {| Marshal := MarshalClient; Unmarshal := UnmarshalClient |}.

Definition tokenCodec : Jsoniter models.Token models.Token :=
  {| Marshal := MarshalToken; Unmarshal := UnmarshalToken |}.

End plainjson.

(* ================================================================== *)
(** * Inputs of the scenarios *)
(* ================================================================== *)

(** The client of the end-to-end scenario. *)
Definition clientC1 : models.Client :=
  {| models.ID := "c1"; models.Secret := "s1";
     models.Domain := "d1"; models.UserID := "u1" |}.

(** A PostgreSQL whose [JSONB] column gives back the document it was
    given. *)
Definition emptyClientTable (name : string) : clientTable :=
  {| relName := name; relExists := true; rows := []; jsonb := Some |}.

Definition emptyTokenTable (name : string) : tokenTable :=
  {| tokRelName := name; tokRelExists := true; tokRows := [];
     nextID := 1; clock := 0; tokJsonb := Some |}.

(** An adapter whose [Exec] always errors. *)
Definition failingExec : mockAdapter unit :=
  {| execCalls := []; selectOneCalls := [];
     execCallback := Some (fun st _ _ => (Some (errorString "connection refused"), st));
     selectCallback := None; captured := tt |}.

(** A [ClientInfo] that jsoniter cannot encode. *)
Definition unencodable : Jsoniter models.Client models.Client :=
  {| Marshal := fun _ => ([], Some (errorString "unsupported type"));
     Unmarshal := plainjson.UnmarshalClient |}.

(** A store as the defaults of [NewClientStore] make it, over [a]. *)
Definition defaultClientStore {A} (a : A) : ClientStore A :=
  {| adapter := a; tableName := "oauth2_clients";
     logger := log_New "[OAUTH2-PG-ERROR]"; initTableDisabled := false |}.

Definition defaultTokenStore {A} (a : A) (g : tokenstore.gcState)
  : tokenstore.TokenStore A :=
  {| tokenstore.adapter := a; tokenstore.tableName := "oauth2_tokens";
     tokenstore.logger := log_New "[OAUTH2-PG-ERROR]";
     tokenstore.gcDisabled := false; tokenstore.gcInterval := 600000000000;
     tokenstore.initTableDisabled := false; tokenstore.gc := g |}.

(* ================================================================== *)
(** * Observations the properties are stated with *)
(* ================================================================== *)

(** The one call [Create] makes for a client whose payload is [data]. *)
Definition insertCall {I} {CI : ClientInfo I} (name : string) (info : I)
  (data : list byte) : queryCall :=
  {| query := Sprintf clientInsertFormat name;
     args := [VString (GetID info); VString (GetSecret info);
              VString (GetDomain info); VBytes data] |}.

(** What the mock's [Exec] answers to a call: what its callback answers,
    [nil] without one. *)
Definition mockExecAnswer {St} (a : mockAdapter St) (c : queryCall) : option error :=
  match execCallback a with
  | Some cb => fst (cb (captured a) (query c) (args c))
  | None => None
  end.

(** The relation [t] once its table is created. *)
Definition createdClientTable (t : clientTable) : clientTable :=
  {| relName := relName t; relExists := true; rows := rows t; jsonb := jsonb t |}.

(** The client [c] read back carries the id, secret, domain and user id
    of [info]. *)
Definition sameClient {I} {CI : ClientInfo I} (c : models.Client) (info : I) : Prop :=
  GetID c = GetID info
  /\ GetSecret c = GetSecret info
  /\ GetDomain c = GetDomain info
  /\ GetUserID c = GetUserID info.

(** The scenario of [runClientStoreTest]: [Create(info)], then
    [GetByID(info.GetID())] on the store [Create] left; its outcome is what
    [GetByID] returns. *)
Definition createThenGetByID {A} {AD : Adapter A} {I} {CI : ClientInfo I}
  {JS : Jsoniter I models.Client} (s : ClientStore A) (info : I)
  : option models.Client * option error :=
  fst (GetByID (snd (Create s info)) (GetID info)).

(** The round trip: the scenario returns, without error, a client that
    carries the fields of [info]. *)
Definition roundTrips {A} {AD : Adapter A} {I} {CI : ClientInfo I}
  {JS : Jsoniter I models.Client} (s : ClientStore A) (info : I) : Prop :=
  exists c, createThenGetByID s info = (Some c, None) /\ sameClient c info.

(** jsoniter reads the payload of [info] back from what the [JSONB] column
    of [t] stores of it. *)
Definition decodesBack {I} {CI : ClientInfo I} {JS : Jsoniter I models.Client}
  (t : clientTable) (info : I) : Prop :=
  forall stored,
    jsonb t (fst (Marshal (T := models.Client) info)) = Some stored ->
    exists c, Unmarshal (I := I) stored = (c, None) /\ sameClient c info.

(** A client relation in which the id "c1" is taken, by a client with
    another secret, domain and user id. *)
Definition takenClientTable : clientTable :=
  {| relName := "oauth2_clients"; relExists := true;
     rows := [{| ID := "c1"; Secret := "s0"; Domain := "d0";
                 Data := fst (plainjson.MarshalClient
                                {| models.ID := "c1"; models.Secret := "s0";
                                   models.Domain := "d0"; models.UserID := "u0" |}) |}];
     jsonb := Some |}.

(** jsoniter reads the payload of the token [info] back, code included,
    from what the [JSONB] column of [t] stores of it. *)
Definition tokenDecodesBack {I} {TI : TokenInfo I} {JS : Jsoniter I models.Token}
  (t : tokenTable) (info : I) : Prop :=
  forall stored,
    tokJsonb t (fst (Marshal (T := models.Token) info)) = Some stored ->
    exists tok, Unmarshal (I := I) stored = (tok, None) /\ GetCode tok = GetCode info.

(** The rows of [t] filed under [code] hold the payload of a token with
    that code, as the rows [Create] writes do. *)
Definition codeRowsDecode {I} {JS : Jsoniter I models.Token}
  (t : tokenTable) (code : string) : Prop :=
  forall r,
    In r (tokRows t) -> tokCode r = code ->
    exists tok, Unmarshal (I := I) (tokData r) = (tok, None) /\ GetCode tok = code.

(** The token of [runTokenStoreCodeTest]: only the code sub-token is
    populated. *)
Definition tokenCode1 : models.Token :=
  models.SetCodeExpiresIn
    (models.SetCodeCreateAt (models.SetCode models.NewToken "code 1") 1000)
    60000000000.

(** The call of one GC pass. *)
Definition gcCall (name : string) : queryCall :=
  {| query := Sprintf tokenstore.gcFormat name; args := [] |}.

(* ================================================================== *)
(** * Runs of operations *)
(* ================================================================== *)

(** An operation of the client store on a store that is already
    constructed. *)
Inductive clientOp (I : Type) : Type :=
| OpCreate (info : I)
| OpGetByID (id : string).

Arguments OpCreate {I} info.
Arguments OpGetByID {I} id.

(** The store an operation leaves behind, and the store a run of
    operations leaves behind, each operation on the store of the one
    before. *)
Definition runClientOp {A} {AD : Adapter A} {I} {CI : ClientInfo I}
  {JS : Jsoniter I models.Client} (s : ClientStore A) (op : clientOp I)
  : ClientStore A :=
  match op with
  | OpCreate info => snd (Create s info)
  | OpGetByID id => snd (GetByID (I := I) s id)
  end.

Definition runClientOps {A} {AD : Adapter A} {I} {CI : ClientInfo I}
  {JS : Jsoniter I models.Client} (s : ClientStore A) (ops : list (clientOp I))
  : ClientStore A :=
  fold_left runClientOp ops s.

(** The operations that get as far as the adapter: a [Create] whose
    payload serializes calls [Exec], a [GetByID] with a non-empty id calls
    [SelectOne]. *)
Definition callsExec {I} {JS : Jsoniter I models.Client} (op : clientOp I) : bool :=
  match op with
  | OpCreate info =>
      match snd (Marshal (T := models.Client) info) with
      | None => true
      | Some _ => false
      end
  | OpGetByID _ => false
  end.

Definition callsSelectOne {I} (op : clientOp I) : bool :=
  match op with
  | OpCreate _ => false
  | OpGetByID id => negb (String.eqb id "")
  end.

(** [Create] of every client of a list in turn: the errors, in order, and
    the store the last one leaves. *)
Fixpoint createAll {A} {AD : Adapter A} {I} {CI : ClientInfo I}
  {JS : Jsoniter I models.Client} (s : ClientStore A) (infos : list I)
  : list (option error) * ClientStore A :=
  match infos with
  | [] => ([], s)
  | info :: rest =>
      let (err, s1) := Create s info in
      let (errs, s2) := createAll s1 rest in
      (err :: errs, s2)
  end.

(** The payload of [info] serializes, the [JSONB] column of [t] stores it,
    and jsoniter reads a client with the fields of [info] back from what is
    stored. *)
Definition storesAndDecodes {I} {CI : ClientInfo I} {JS : Jsoniter I models.Client}
  (t : clientTable) (info : I) : Prop :=
  snd (Marshal (T := models.Client) info) = None
  /\ exists stored,
      jsonb t (fst (Marshal (T := models.Client) info)) = Some stored
      /\ exists c, Unmarshal (I := I) stored = (c, None) /\ sameClient c info.

(** A run of [Exec] calls, and a run of [SelectOne] calls each into its
    own destination, on an adapter. *)
Definition execAll {A} {AD : Adapter A} (a : A) (calls : list queryCall) : A :=
  fold_left (fun a c => snd (Exec a (query c) (args c))) calls a.

Definition selectAll {A} {AD : Adapter A} (a : A) (calls : list (dest * queryCall)) : A :=
  fold_left (fun a c => snd (SelectOne a (fst c) (query (snd c)) (args (snd c))))
    calls a.

(** A run of [Printf] calls on a logger. *)
Definition printAll (l : Logger) (entries : list (string * list iface)) : Logger :=
  fold_left (fun l e => Printf l (fst e) (snd e)) entries l.

(** A client relation that holds one row whose payload is not a JSON
    document jsoniter reads. *)
Definition brokenClientTable : clientTable :=
  {| relName := "oauth2_clients"; relExists := true;
     rows := [{| ID := "c1"; Secret := "s1"; Domain := "d1"; Data := [] |}];
     jsonb := Some |}.

(** The client relation before its table is created. *)
Definition missingClientTable : clientTable :=
  {| relName := "oauth2_clients"; relExists := false; rows := []; jsonb := Some |}.

(** Another client, with another id. *)
Definition clientC2 : models.Client :=
  {| models.ID := "c2"; models.Secret := "s2";
     models.Domain := "d2"; models.UserID := "u2" |}.

(** The store [s] is set on the relation behind its adapter: the relation
    has the store's table name and its table is created. *)
Definition attached (s : ClientStore clientTable) : Prop :=
  tableName s = relName (adapter s) /\ relExists (adapter s) = true.

(** The relation holds a row under [id]. *)
Definition holdsID (t : clientTable) (id : string) : bool :=
  existsb (clientRowHasID id) (rows t).

(** A client without an id. *)
Definition clientNoID : models.Client :=
  {| models.ID := ""; models.Secret := "s"; models.Domain := "d"; models.UserID := "u" |}.

(* ================================================================== *)
(** * Properties *)
(* ================================================================== *)

(** The statements are compared as texts: in the proofs [Sprintf] is
    unfolded only where a text is computed. *)
Opaque Sprintf.

(** ** Configuration *)

Section Configuration.

Context {A : Type}.

Lemma fold_options_adapter (options : list ClientStoreOption) (s : ClientStore A) :
  adapter (fold_left applyClientStoreOption options s) = adapter s.
Proof.
  revert s; induction options as [|o options IH]; intros s; simpl.
  - reflexivity.
  - rewrite IH. destruct o; reflexivity.
Qed.

Lemma fold_options_disabled (options : list ClientStoreOption) (s : ClientStore A) :
  initTableDisabled (fold_left applyClientStoreOption options s)
  = initTableDisabled s
    || existsb (fun o => match o with
                         | WithClientStoreInitTableDisabled => true
                         | _ => false
                         end) options.
Proof.
  revert s; induction options as [|o options IH]; intros s; simpl.
  - now rewrite orb_false_r.
  - rewrite IH. destruct o; simpl; try reflexivity.
    now rewrite orb_true_r.
Qed.

End Configuration.

Lemma configured_adapter {A} (a : A) (options : list ClientStoreOption) :
  adapter (configuredClientStore a options) = a.
Proof. unfold configuredClientStore. now rewrite fold_options_adapter. Qed.

Lemma configured_enabled {A} (a : A) (options : list ClientStoreOption) :
  ~ In WithClientStoreInitTableDisabled options ->
  initTableDisabled (configuredClientStore a options) = false.
Proof.
  intros Hnot. unfold configuredClientStore.
  rewrite fold_options_disabled. simpl.
  apply not_true_is_false. intros Hex.
  apply existsb_exists in Hex. destruct Hex as [o [Hin Ho]].
  destruct o; try discriminate. contradiction.
Qed.

Lemma configured_disabled {A} (a : A) (options : list ClientStoreOption) :
  In WithClientStoreInitTableDisabled options ->
  initTableDisabled (configuredClientStore a options) = true.
Proof.
  intros Hin. unfold configuredClientStore.
  rewrite fold_options_disabled. simpl.
  apply existsb_exists. now exists WithClientStoreInitTableDisabled.
Qed.

Section TokenConfiguration.

Import tokenstore.
Context {A : Type}.

Lemma token_fold_options_adapter (options : list TokenStoreOption) (s : TokenStore A) :
  adapter (fold_left applyTokenStoreOption options s) = adapter s.
Proof.
  revert s; induction options as [|o options IH]; intros s; simpl.
  - reflexivity.
  - rewrite IH. destruct o; reflexivity.
Qed.

Lemma token_fold_options_disabled (options : list TokenStoreOption) (s : TokenStore A) :
  initTableDisabled (fold_left applyTokenStoreOption options s)
  = initTableDisabled s
    || existsb (fun o => match o with
                         | WithTokenStoreInitTableDisabled => true
                         | _ => false
                         end) options.
Proof.
  revert s; induction options as [|o options IH]; intros s; simpl.
  - now rewrite orb_false_r.
  - rewrite IH. destruct o; simpl; try reflexivity.
    now rewrite orb_true_r.
Qed.

Lemma token_configured_adapter (a : A) (options : list TokenStoreOption) :
  adapter (configuredTokenStore a options) = a.
Proof. unfold configuredTokenStore. now rewrite token_fold_options_adapter. Qed.

Lemma token_configured_enabled (a : A) (options : list TokenStoreOption) :
  ~ In WithTokenStoreInitTableDisabled options ->
  initTableDisabled (configuredTokenStore a options) = false.
Proof.
  intros Hnot. unfold configuredTokenStore.
  rewrite token_fold_options_disabled. simpl.
  apply not_true_is_false. intros Hex.
  apply existsb_exists in Hex. destruct Hex as [o [Hin Ho]].
  destruct o; try discriminate. contradiction.
Qed.

Lemma token_configured_disabled (a : A) (options : list TokenStoreOption) :
  In WithTokenStoreInitTableDisabled options ->
  initTableDisabled (configuredTokenStore a options) = true.
Proof.
  intros Hin. unfold configuredTokenStore.
  rewrite token_fold_options_disabled. simpl.
  apply existsb_exists. now exists WithTokenStoreInitTableDisabled.
Qed.

End TokenConfiguration.

(** ** Look-ups with the empty key *)

(** C2. With the empty string as key, [GetByID] of the client store and
    [GetByCode], [GetByAccess] and [GetByRefresh] of the token store return
    a nil result and a nil error and leave the store, and so its adapter,
    as they found it, whatever the adapter: on an adapter that records its
    calls, none is added. The answer is not the one of a key that is not
    found, a nil result with the "no rows" error. *)
Theorem empty_key_short_circuit :
  (forall (A : Type) (AD : Adapter A)
          (I : Type) (JC : Jsoniter I models.Client)
          (s : ClientStore A),
      GetByID (I := I) s "" = ((None, None), s)
      /\ fst (GetByID (I := I) s "") <> (None, Some ErrNoRows))
  /\ (forall (A : Type) (AD : Adapter A)
             (J : Type) (JT : Jsoniter J models.Token)
             (t : tokenstore.TokenStore A),
         tokenstore.GetByCode (I := J) t "" = ((None, None), t)
         /\ tokenstore.GetByAccess (I := J) t "" = ((None, None), t)
         /\ tokenstore.GetByRefresh (I := J) t "" = ((None, None), t)
         /\ fst (tokenstore.GetByCode (I := J) t "") <> (None, Some ErrNoRows)
         /\ fst (tokenstore.GetByAccess (I := J) t "") <> (None, Some ErrNoRows)
         /\ fst (tokenstore.GetByRefresh (I := J) t "") <> (None, Some ErrNoRows))
  /\ (forall (St : Type)
             (I : Type) (JC : Jsoniter I models.Client)
             (s : ClientStore (mockAdapter St)),
         execCalls (adapter (snd (GetByID (I := I) s ""))) = execCalls (adapter s)
         /\ selectOneCalls (adapter (snd (GetByID (I := I) s "")))
            = selectOneCalls (adapter s))
  /\ (forall (St : Type)
             (J : Type) (JT : Jsoniter J models.Token)
             (t : tokenstore.TokenStore (mockAdapter St)),
         let calls (r : tokenstore.TokenStore (mockAdapter St)) :=
           (execCalls (tokenstore.adapter r), selectOneCalls (tokenstore.adapter r)) in
         calls (snd (tokenstore.GetByCode (I := J) t "")) = calls t
         /\ calls (snd (tokenstore.GetByAccess (I := J) t "")) = calls t
         /\ calls (snd (tokenstore.GetByRefresh (I := J) t "")) = calls t).
Proof.
  repeat split; try reflexivity; cbn; discriminate.
Qed.

(** ** [GetByID] *)

(** C4. For a non-empty id on which the adapter's [SelectOne] signals "no
    rows", [GetByID] returns a nil client with that very error,
    [ErrNoRows]: neither the nil result with a nil error of the empty key
    nor another failure. *)
Theorem GetByID_not_found :
  forall (A : Type) (AD : Adapter A)
         (I : Type) (JC : Jsoniter I models.Client)
         (s : ClientStore A) (id : string) (dst : dest) (a : A),
    id <> "" ->
    SelectOne (adapter s) (ClientDest zeroClientStoreItem)
      (Sprintf clientSelectFormat (tableName s)) [VString id]
    = ((dst, Some ErrNoRows), a) ->
    GetByID (I := I) s id = ((None, Some ErrNoRows), withAdapter s a)
    /\ fst (GetByID (I := I) s id) <> (None, None)
    /\ (forall msg, snd (fst (GetByID (I := I) s id)) <> Some (errorString msg)).
Proof.
  intros A AD I JC s id dst a Hid Hsel.
  assert (Hget : GetByID (I := I) s id = ((None, Some ErrNoRows), withAdapter s a)).
  { unfold GetByID. apply String.eqb_neq in Hid. rewrite Hid, Hsel. reflexivity. }
  rewrite Hget. repeat split; simpl; intros; discriminate.
Qed.

Lemma GetByID_not_found_witness :
  GetByID (I := models.Client) (JS := plainjson.clientCodec)
    (defaultClientStore (emptyClientTable "oauth2_clients")) "c1"
  = ((None, Some ErrNoRows),
     defaultClientStore (emptyClientTable "oauth2_clients")).
Proof.
  apply (GetByID_not_found clientTable _ models.Client plainjson.clientCodec
           (defaultClientStore (emptyClientTable "oauth2_clients")) "c1"
           (ClientDest zeroClientStoreItem) (emptyClientTable "oauth2_clients")).
  - discriminate.
  - reflexivity.
Defined.

(** ** [Create] *)

Section CreateFacts.

Context {I : Type} {CI : ClientInfo I} {JS : Jsoniter I models.Client}.

Lemma Create_unfold {A} {AD : Adapter A} (s : ClientStore A) (info : I)
  (data : list byte) :
  Marshal (T := models.Client) info = (data, None) ->
  Create s info
  = (fst (Exec (adapter s) (query (insertCall (tableName s) info data))
            (args (insertCall (tableName s) info data))),
     withAdapter s
       (snd (Exec (adapter s) (query (insertCall (tableName s) info data))
               (args (insertCall (tableName s) info data))))).
Proof.
  intros Hser. unfold Create. rewrite Hser. simpl.
  now destruct (Exec _ _ _).
Qed.

End CreateFacts.

Lemma mock_Exec_records {St} (a : mockAdapter St) (q : string) (v : list iface) :
  fst (Exec a q v) = mockExecAnswer a {| query := q; args := v |}
  /\ execCalls (snd (Exec a q v)) = execCalls a ++ [{| query := q; args := v |}]
  /\ selectOneCalls (snd (Exec a q v)) = selectOneCalls a.
Proof.
  unfold mockExecAnswer. cbn [Exec mockAdapter_Adapter query args].
  unfold mockAdapter_Exec.
  destruct (execCallback a) as [cb|].
  - destruct (cb (captured a) q v); cbn [fst snd execCalls selectOneCalls]. auto.
  - cbn [fst snd execCalls selectOneCalls]. auto.
Qed.

(** C5. For a client whose payload serializes, [Create] is exactly one
    [Exec] on the store's adapter, of the insert statement with the
    client's id, secret, domain and serialized payload: it returns what
    that [Exec] returns, error included, as it is, and leaves the adapter
    as that one call leaves it. On an adapter that records its calls, one
    [Exec] call is added, the insert, and no [SelectOne] call: no existence
    check before, no retry after. *)
Theorem Create_one_insert :
  forall (I : Type) (CI : ClientInfo I) (JS : Jsoniter I models.Client)
         (info : I) (data : list byte),
    Marshal (T := models.Client) info = (data, None) ->
    (forall (A : Type) (AD : Adapter A) (s : ClientStore A),
        let c := insertCall (tableName s) info data in
        Create s info
        = (fst (Exec (adapter s) (query c) (args c)),
           withAdapter s (snd (Exec (adapter s) (query c) (args c)))))
    /\ (forall (St : Type) (s : ClientStore (mockAdapter St)),
           let c := insertCall (tableName s) info data in
           fst (Create s info) = mockExecAnswer (adapter s) c
           /\ execCalls (adapter (snd (Create s info))) = execCalls (adapter s) ++ [c]
           /\ selectOneCalls (adapter (snd (Create s info)))
              = selectOneCalls (adapter s)).
Proof.
  intros I CI JS info data Hser. split.
  - intros A AD s c. now apply Create_unfold.
  - intros St s c.
    rewrite (Create_unfold s info data Hser). cbn [fst snd].
    unfold withAdapter; cbn [adapter].
    exact (mock_Exec_records (adapter s) (query c) (args c)).
Qed.

Lemma Create_one_insert_witness :
  let s := defaultClientStore failingExec in
  fst (Create (JS := plainjson.clientCodec) s clientC1)
  = Some (errorString "connection refused")
  /\ length (execCalls (adapter (snd (Create (JS := plainjson.clientCodec) s clientC1)))) = 1
  /\ selectOneCalls (adapter (snd (Create (JS := plainjson.clientCodec) s clientC1))) = [].
Proof.
  intros s.
  destruct (Create_one_insert models.Client _ plainjson.clientCodec clientC1
              (fst (plainjson.MarshalClient clientC1)) eq_refl) as [_ Hmock].
  destruct (Hmock unit s) as [Herr [Hexec Hsel]].
  rewrite Herr, Hexec, Hsel. repeat split.
Defined.

(** C10. For a client whose payload fails to serialize, [Create] returns
    the serialization error and leaves the store, and so its adapter, as
    it found it, whatever the adapter: on an adapter that records its
    calls, none is added. *)
Theorem Create_serialization_failure :
  forall (I : Type) (CI : ClientInfo I) (JS : Jsoniter I models.Client)
         (info : I) (data : list byte) (e : error),
    Marshal (T := models.Client) info = (data, Some e) ->
    (forall (A : Type) (AD : Adapter A) (s : ClientStore A),
        Create s info = (Some e, s))
    /\ (forall (St : Type) (s : ClientStore (mockAdapter St)),
           execCalls (adapter (snd (Create s info))) = execCalls (adapter s)
           /\ selectOneCalls (adapter (snd (Create s info)))
              = selectOneCalls (adapter s)).
Proof.
  intros I CI JS info data e Hser.
  assert (Hcreate : forall (A : Type) (AD : Adapter A) (s : ClientStore A),
             Create s info = (Some e, s)).
  { intros A AD s. unfold Create. now rewrite Hser. }
  split; [exact Hcreate|].
  intros St s. now rewrite Hcreate.
Qed.

Lemma Create_serialization_failure_witness :
  Create (JS := unencodable) (defaultClientStore new_mockAdapter) clientC1
  = (Some (errorString "unsupported type"), defaultClientStore new_mockAdapter).
Proof.
  destruct (Create_serialization_failure models.Client _ unencodable clientC1 []
              (errorString "unsupported type") eq_refl) as [Hcreate _].
  apply Hcreate.
Defined.

(** ** Construction *)

Lemma clientTable_text (name : string) :
  Sprintf clientTableFormat name
  = (nl ++ "CREATE TABLE IF NOT EXISTS " ++ name ++ " (" ++ nl
        ++ "  id     TEXT  NOT NULL," ++ nl
        ++ "  secret TEXT  NOT NULL," ++ nl
        ++ "  domain TEXT  NOT NULL," ++ nl
        ++ "  data   JSONB NOT NULL," ++ nl
        ++ "  CONSTRAINT " ++ name ++ "_pkey PRIMARY KEY (id)" ++ nl
        ++ ");" ++ nl)%string.
Proof. reflexivity. Qed.

Lemma clientTable_statement_index (name : string) :
  strings_Index (Sprintf clientTableFormat name) "CREATE TABLE IF NOT EXISTS" = 1%Z.
Proof. reflexivity. Qed.

Lemma tokenTable_statement_index (name : string) :
  strings_Index (Sprintf tokenstore.tokenTableFormat name) "CREATE TABLE IF NOT EXISTS"
  = 1%Z.
Proof. reflexivity. Qed.

Lemma NewClientStore_enabled {A} {AD : Adapter A} (a : A)
  (options : list ClientStoreOption) :
  ~ In WithClientStoreInitTableDisabled options ->
  let cfg := configuredClientStore a options in
  let r := Exec a (Sprintf clientTableFormat (tableName cfg)) [] in
  NewClientStore a options = (Some (withAdapter cfg (snd r)), fst r).
Proof.
  intros Hen cfg r. unfold NewClientStore. fold cfg.
  unfold cfg at 1. rewrite (configured_enabled a options Hen). cbn [negb].
  unfold initTable. fold cfg. unfold cfg at 1. rewrite configured_adapter. fold r.
  destruct r as [[e|] a']; reflexivity.
Qed.

Lemma NewClientStore_disabled {A} {AD : Adapter A} (a : A)
  (options : list ClientStoreOption) :
  In WithClientStoreInitTableDisabled options ->
  NewClientStore a options = (Some (configuredClientStore a options), None).
Proof.
  intros Hdis. unfold NewClientStore.
  now rewrite (configured_disabled a options Hdis).
Qed.

Lemma NewTokenStore_enabled {A} {AD : Adapter A} (a : A)
  (options : list tokenstore.TokenStoreOption) :
  ~ In tokenstore.WithTokenStoreInitTableDisabled options ->
  let cfg := tokenstore.configuredTokenStore a options in
  let r := Exec a (Sprintf tokenstore.tokenTableFormat (tokenstore.tableName cfg)) [] in
  exists store,
    tokenstore.NewTokenStore a options = (Some store, fst r)
    /\ tokenstore.adapter store = snd r
    /\ tokenstore.tableName store = tokenstore.tableName cfg
    /\ tokenstore.logger store = tokenstore.logger cfg.
Proof.
  intros Hen cfg r. unfold tokenstore.NewTokenStore. fold cfg.
  unfold cfg at 1. rewrite (token_configured_enabled a options Hen). cbn [negb].
  unfold tokenstore.initTable. fold cfg. unfold cfg at 1.
  rewrite token_configured_adapter. fold r.
  destruct r as [e a']. cbn [fst snd].
  eexists. split; [reflexivity|].
  destruct (tokenstore.gcDisabled _); repeat split; reflexivity.
Qed.

Lemma NewTokenStore_disabled {A} {AD : Adapter A} (a : A)
  (options : list tokenstore.TokenStoreOption) :
  In tokenstore.WithTokenStoreInitTableDisabled options ->
  exists store,
    tokenstore.NewTokenStore a options = (Some store, None)
    /\ tokenstore.adapter store = a.
Proof.
  intros Hdis. unfold tokenstore.NewTokenStore.
  rewrite (token_configured_disabled a options Hdis). cbn [negb].
  eexists. split; [reflexivity|].
  destruct (tokenstore.gcDisabled _); cbn; apply token_configured_adapter.
Qed.

(** C3. When the [Exec] of the table-creation statement returns an error,
    [NewClientStore] returns a non-nil store together with that error: the
    store is the configured one over the adapter as the failed call left
    it, the very store a successful construction returns. [NewTokenStore]
    does the same. *)
Theorem construction_soft_fail :
  forall (A : Type) (AD : Adapter A) (a a' : A) (e : error),
    (forall options : list ClientStoreOption,
        ~ In WithClientStoreInitTableDisabled options ->
        Exec a (Sprintf clientTableFormat
                  (tableName (configuredClientStore a options))) []
        = (Some e, a') ->
        NewClientStore a options
        = (Some (withAdapter (configuredClientStore a options) a'), Some e))
    /\ (forall options : list tokenstore.TokenStoreOption,
           ~ In tokenstore.WithTokenStoreInitTableDisabled options ->
           Exec a (Sprintf tokenstore.tokenTableFormat
                     (tokenstore.tableName (tokenstore.configuredTokenStore a options))) []
           = (Some e, a') ->
           exists store,
             tokenstore.NewTokenStore a options = (Some store, Some e)
             /\ tokenstore.adapter store = a'
             /\ tokenstore.tableName store
                = tokenstore.tableName (tokenstore.configuredTokenStore a options)
             /\ tokenstore.logger store
                = tokenstore.logger (tokenstore.configuredTokenStore a options)).
Proof.
  intros A AD a a' e. split; intros options Hen Hexec.
  - rewrite (NewClientStore_enabled a options Hen). now rewrite Hexec.
  - destruct (NewTokenStore_enabled a options Hen) as [store Hstore].
    rewrite Hexec in Hstore. now exists store.
Qed.

Lemma construction_soft_fail_witness :
  (exists store,
      NewClientStore failingExec [] = (Some store, Some (errorString "connection refused"))
      /\ tableName store = "oauth2_clients")
  /\ (exists store,
         tokenstore.NewTokenStore failingExec []
         = (Some store, Some (errorString "connection refused"))).
Proof.
  destruct (construction_soft_fail (mockAdapter unit) _ failingExec
              (snd (Exec failingExec (Sprintf clientTableFormat "oauth2_clients") []))
              (errorString "connection refused")) as [Hclient _].
  destruct (construction_soft_fail (mockAdapter unit) _ failingExec
              (snd (Exec failingExec (Sprintf tokenstore.tokenTableFormat "oauth2_tokens") []))
              (errorString "connection refused")) as [_ Htoken].
  split.
  - eexists. split.
    + apply (Hclient []); [intros [] | reflexivity].
    + reflexivity.
  - destruct (Htoken []) as [store [Hnew _]]; [intros [] | reflexivity |].
    now exists store.
Defined.

Lemma clientTable_Exec_create (t : clientTable) :
  Exec t (Sprintf clientTableFormat (relName t)) [] = (None, createdClientTable t).
Proof.
  cbn [Exec clientTable_Adapter]. unfold clientTable_Exec.
  generalize (Sprintf clientTableFormat (relName t)) as q. intros q.
  now rewrite (String.eqb_refl q).
Qed.

(** C6. A construction in which table creation is not disabled is exactly
    one [Exec] on the adapter, without arguments, of the statement of the
    fixed schema for the configured table name, which reads "CREATE TABLE
    IF NOT EXISTS" right after its leading line feed; on an adapter that
    records its calls, that one call is added and nothing else. The
    statement is idempotent: on a PostgreSQL relation, running it again
    changes nothing and succeeds. The token store's construction does the
    same with its own schema. *)
Theorem construction_creates_table :
  (forall (A : Type) (AD : Adapter A) (a : A) (options : list ClientStoreOption),
      ~ In WithClientStoreInitTableDisabled options ->
      let cfg := configuredClientStore a options in
      let stmt := Sprintf clientTableFormat (tableName cfg) in
      NewClientStore a options
      = (Some (withAdapter cfg (snd (Exec a stmt []))), fst (Exec a stmt []))
      /\ stmt
         = (nl ++ "CREATE TABLE IF NOT EXISTS " ++ tableName cfg ++ " (" ++ nl
               ++ "  id     TEXT  NOT NULL," ++ nl
               ++ "  secret TEXT  NOT NULL," ++ nl
               ++ "  domain TEXT  NOT NULL," ++ nl
               ++ "  data   JSONB NOT NULL," ++ nl
               ++ "  CONSTRAINT " ++ tableName cfg ++ "_pkey PRIMARY KEY (id)" ++ nl
               ++ ");" ++ nl)%string
      /\ strings_Index stmt "CREATE TABLE IF NOT EXISTS" = 1%Z)
  /\ (forall (St : Type) (m : mockAdapter St) (options : list ClientStoreOption),
         ~ In WithClientStoreInitTableDisabled options ->
         exists store,
           fst (NewClientStore m options) = Some store
           /\ execCalls (adapter store)
              = execCalls m
                  ++ [{| query := Sprintf clientTableFormat (tableName store);
                         args := [] |}]
           /\ selectOneCalls (adapter store) = selectOneCalls m)
  /\ (forall t : clientTable,
         let stmt := Sprintf clientTableFormat (relName t) in
         Exec (snd (Exec t stmt [])) stmt [] = (None, snd (Exec t stmt [])))
  /\ (forall (A : Type) (AD : Adapter A) (a : A)
             (options : list tokenstore.TokenStoreOption),
         ~ In tokenstore.WithTokenStoreInitTableDisabled options ->
         let cfg := tokenstore.configuredTokenStore a options in
         let stmt := Sprintf tokenstore.tokenTableFormat (tokenstore.tableName cfg) in
         (exists store,
             tokenstore.NewTokenStore a options = (Some store, fst (Exec a stmt []))
             /\ tokenstore.adapter store = snd (Exec a stmt []))
         /\ strings_Index stmt "CREATE TABLE IF NOT EXISTS" = 1%Z).
Proof.
  split; [|split; [|split]].
  - intros A AD a options Hen cfg stmt. split; [|split].
    + apply (NewClientStore_enabled a options Hen).
    + apply clientTable_text.
    + apply clientTable_statement_index.
  - intros St m options Hen.
    rewrite (NewClientStore_enabled m options Hen). cbn [fst].
    eexists. split; [reflexivity|].
    unfold withAdapter; cbn [adapter tableName].
    destruct (mock_Exec_records m
                (Sprintf clientTableFormat (tableName (configuredClientStore m options)))
                []) as [_ [Hexec Hsel]].
    split; [exact Hexec | exact Hsel].
  - intros t stmt. subst stmt.
    rewrite (clientTable_Exec_create t). cbn [snd].
    apply (clientTable_Exec_create (createdClientTable t)).
  - intros A AD a options Hen cfg stmt. split.
    + destruct (NewTokenStore_enabled a options Hen) as [store [Hnew [Had _]]].
      now exists store.
    + apply tokenTable_statement_index.
Qed.

Lemma construction_creates_table_witness :
  fst (Exec (emptyClientTable "oauth2_clients")
         (Sprintf clientTableFormat "oauth2_clients") []) = None
  /\ NewClientStore (emptyClientTable "oauth2_clients") []
     = (Some (defaultClientStore (emptyClientTable "oauth2_clients")), None).
Proof.
  destruct construction_creates_table as [Hclient _].
  destruct (Hclient clientTable _ (emptyClientTable "oauth2_clients") [])
    as [Hnew _]; [intros [] |].
  split; [reflexivity | exact Hnew].
Defined.

(** C7. A construction with the disable-table-creation option returns the
    configured store and a nil error, and the store's adapter is the
    adapter it was given, untouched: on an adapter that records its calls,
    no [Exec] call is added. The same holds of the token store's
    construction. *)
Theorem construction_init_disabled :
  (forall (A : Type) (AD : Adapter A) (a : A) (options : list ClientStoreOption),
      In WithClientStoreInitTableDisabled options ->
      NewClientStore a options = (Some (configuredClientStore a options), None)
      /\ adapter (configuredClientStore a options) = a)
  /\ (forall (St : Type) (m : mockAdapter St) (options : list ClientStoreOption),
         In WithClientStoreInitTableDisabled options ->
         exists store,
           NewClientStore m options = (Some store, None)
           /\ execCalls (adapter store) = execCalls m)
  /\ (forall (A : Type) (AD : Adapter A) (a : A)
             (options : list tokenstore.TokenStoreOption),
         In tokenstore.WithTokenStoreInitTableDisabled options ->
         exists store,
           tokenstore.NewTokenStore a options = (Some store, None)
           /\ tokenstore.adapter store = a).
Proof.
  split; [|split].
  - intros A AD a options Hdis. split.
    + now apply NewClientStore_disabled.
    + apply configured_adapter.
  - intros St m options Hdis. eexists. split.
    + now apply NewClientStore_disabled.
    + now rewrite configured_adapter.
  - intros A AD a options Hdis. now apply NewTokenStore_disabled.
Qed.

Lemma construction_init_disabled_witness :
  (exists store,
      NewClientStore failingExec [WithClientStoreInitTableDisabled] = (Some store, None)
      /\ execCalls (adapter store) = [])
  /\ (exists store,
         tokenstore.NewTokenStore failingExec
           [tokenstore.WithTokenStoreInitTableDisabled] = (Some store, None)
         /\ execCalls (tokenstore.adapter store) = []).
Proof.
  destruct construction_init_disabled as [_ [Hclient Htoken]].
  split.
  - apply (Hclient unit failingExec [WithClientStoreInitTableDisabled]).
    now left.
  - destruct (Htoken (mockAdapter unit) _ failingExec
                [tokenstore.WithTokenStoreInitTableDisabled])
      as [store [Hnew Had]]; [now left |].
    exists store. split; [exact Hnew | now rewrite Had].
Defined.

(** ** Statements and the relation behind them *)

Lemma string_length_append (a b : string) :
  String.length (a ++ b) = String.length a + String.length b.
Proof. induction a as [|c a IH]; simpl; [reflexivity | now rewrite IH]. Qed.

Lemma string_append_cancel_r (suffix a b : string) :
  (a ++ suffix)%string = (b ++ suffix)%string -> a = b.
Proof.
  revert b; induction a as [|c a IH]; intros [|d b] Heq; simpl in Heq.
  - reflexivity.
  - apply (f_equal String.length) in Heq. simpl in Heq.
    rewrite string_length_append in Heq. lia.
  - apply (f_equal String.length) in Heq. simpl in Heq.
    rewrite string_length_append in Heq. lia.
  - injection Heq as Hc Hrest. subst d. f_equal. now apply IH.
Qed.

Lemma clientInsert_text (name : string) :
  Sprintf clientInsertFormat name
  = ("INSERT INTO " ++ name ++ " (id, secret, domain, data) VALUES ($1, $2, $3, $4)")%string.
Proof. reflexivity. Qed.

Lemma clientInsert_inj (n m : string) :
  Sprintf clientInsertFormat n = Sprintf clientInsertFormat m -> n = m.
Proof.
  rewrite !clientInsert_text. intros Heq.
  injection Heq as Heq. now apply string_append_cancel_r in Heq.
Qed.

Lemma clientInsert_not_create (n m : string) :
  String.eqb (Sprintf clientInsertFormat n) (Sprintf clientTableFormat m) = false.
Proof. reflexivity. Qed.

Lemma find_fresh {X} (f : X -> bool) (l : list X) (x : X) :
  existsb f l = false -> f x = true -> find f (l ++ [x]) = Some x.
Proof.
  induction l as [|y l IH]; simpl; intros Hl Hx.
  - now rewrite Hx.
  - apply orb_false_iff in Hl. destruct Hl as [Hy Hl].
    rewrite Hy. now apply IH.
Qed.

(** A successful insert: the statement names the relation, which exists,
    the document is one [JSONB] stores, the id is new and the row is
    appended. *)
Lemma clientTable_insert_ok (t t' : clientTable) (name id secret domain : string)
  (data : list byte) :
  Exec t (Sprintf clientInsertFormat name)
    [VString id; VString secret; VString domain; VBytes data] = (None, t') ->
  name = relName t
  /\ exists stored,
      jsonb t data = Some stored
      /\ existsb (clientRowHasID id) (rows t) = false
      /\ t' = {| relName := relName t; relExists := true;
                 rows := rows t ++ [{| ID := id; Secret := secret;
                                       Domain := domain; Data := stored |}];
                 jsonb := jsonb t |}.
Proof.
  cbn [Exec clientTable_Adapter]. unfold clientTable_Exec.
  rewrite clientInsert_not_create.
  destruct (String.eqb (Sprintf clientInsertFormat name)
              (Sprintf clientInsertFormat (relName t))) eqn:Hname;
    [|discriminate].
  apply String.eqb_eq, clientInsert_inj in Hname.
  destruct (relExists t) eqn:Hex; cbn [negb]; [|discriminate].
  destruct (jsonb t data) as [stored|] eqn:Hjson; [|discriminate].
  destruct (existsb (clientRowHasID id) (rows t)) eqn:Hdup; [discriminate|].
  intros Heq. injection Heq as Ht'. split; [exact Hname|].
  exists stored. repeat split. now subst t'.
Qed.

Lemma clientTable_select_fresh (t : clientTable) (r : ClientStoreItem) (dst : ClientStoreItem) :
  relExists t = true ->
  find (clientRowHasID (ID r)) (rows t) = Some r ->
  SelectOne t (ClientDest dst) (Sprintf clientSelectFormat (relName t)) [VString (ID r)]
  = ((ClientDest r, None), t).
Proof.
  intros Hex Hfind. cbn [SelectOne clientTable_Adapter]. unfold clientTable_SelectOne.
  generalize (Sprintf clientSelectFormat (relName t)) as q. intros q.
  rewrite (String.eqb_refl q), Hex. cbn [negb]. now rewrite Hfind.
Qed.

(** ** The round trip of the client store *)

(** C1, as stated, fails. The client of the scenario, whose id is not
    empty and whose payload serializes, is created over a relation in which
    its id is taken: [Create] returns the constraint violation, and
    [GetByID] with that id returns, without error, the client that holds
    the id, whose secret, domain and user id are others. *)
Lemma round_trip_fails_on_taken_id :
  let s := defaultClientStore takenClientTable in
  GetID clientC1 <> ""
  /\ snd (Marshal (Jsoniter := plainjson.clientCodec) clientC1) = None
  /\ fst (Create (JS := plainjson.clientCodec) s clientC1)
     = Some (errorString "duplicate key value violates unique constraint")
  /\ createThenGetByID (JS := plainjson.clientCodec) s clientC1
     = (Some {| models.ID := "c1"; models.Secret := "s0";
                models.Domain := "d0"; models.UserID := "u0" |}, None)
  /\ ~ roundTrips (JS := plainjson.clientCodec) s clientC1.
Proof.
  intros s.
  assert (Hget : createThenGetByID (JS := plainjson.clientCodec) s clientC1
                 = (Some {| models.ID := "c1"; models.Secret := "s0";
                            models.Domain := "d0"; models.UserID := "u0" |}, None))
    by (vm_compute; reflexivity).
  split; [discriminate|]. split; [reflexivity|].
  split; [vm_compute; reflexivity|]. split; [exact Hget|].
  intros [c [Hc [_ [Hsecret _]]]].
  rewrite Hget in Hc. injection Hc as Hc. subst c. discriminate.
Qed.

(** C1, amended. For a client with a non-empty id, when [Create] on a
    PostgreSQL relation returns no error and jsoniter reads the payload
    back from what the relation stores of it, [GetByID] with the client's
    id returns, without error, a client with the same id, secret, domain
    and user id. *)
Theorem Create_GetByID_round_trip :
  forall (I : Type) (CI : ClientInfo I) (JS : Jsoniter I models.Client)
         (s : ClientStore clientTable) (info : I),
    GetID info <> "" ->
    fst (Create s info) = None ->
    decodesBack (adapter s) info ->
    roundTrips s info.
Proof.
  intros I CI JS s info Hid Hcreate Hdecode.
  unfold roundTrips, createThenGetByID.
  unfold Create in *. unfold decodesBack in Hdecode.
  destruct (Marshal (T := models.Client) info) as [data err]. cbn [fst] in Hdecode.
  destruct err as [e|]; [discriminate|].
  destruct (Exec (adapter s) (Sprintf clientInsertFormat (tableName s)) _)
    as [err t'] eqn:Hexec.
  cbn [fst] in Hcreate. subst err.
  apply clientTable_insert_ok in Hexec.
  destruct Hexec as [Hname [stored [Hjson [Hfresh Ht']]]].
  destruct (Hdecode stored Hjson) as [c [Hread Hsame]].
  exists c. split; [|exact Hsame].
  cbn [snd]. unfold GetByID.
  apply String.eqb_neq in Hid. rewrite Hid.
  unfold withAdapter at 1 2. cbn [adapter tableName]. rewrite Hname.
  set (r := {| ID := GetID info; Secret := GetSecret info;
               Domain := GetDomain info; Data := stored |}) in Ht'.
  assert (Hsel : SelectOne t' (ClientDest zeroClientStoreItem)
                   (Sprintf clientSelectFormat (relName (adapter s)))
                   [VString (GetID info)] = ((ClientDest r, None), t')).
  { replace (relName (adapter s)) with (relName t') by now subst t'.
    apply (clientTable_select_fresh t' r).
    - now subst t'.
    - subst t'. cbn [rows]. apply find_fresh; [exact Hfresh|].
      unfold clientRowHasID. apply String.eqb_refl. }
  rewrite Hsel. cbn [fst]. unfold toClientInfo. cbn [Data r].
  now rewrite Hread.
Qed.

Lemma Create_GetByID_round_trip_witness :
  createThenGetByID (JS := plainjson.clientCodec)
    (defaultClientStore (emptyClientTable "oauth2_clients")) clientC1
  = (Some clientC1, None).
Proof.
  destruct (Create_GetByID_round_trip models.Client _ plainjson.clientCodec
              (defaultClientStore (emptyClientTable "oauth2_clients")) clientC1)
    as [c [Hget _]].
  - discriminate.
  - reflexivity.
  - intros stored Hstored. injection Hstored as Hstored. subst stored.
    exists clientC1. split; [reflexivity | repeat split].
  - rewrite Hget. f_equal. f_equal.
    vm_compute in Hget. now injection Hget.
Defined.

(** ** The code life cycle of the token store *)

Lemma tokenInsert_text (name : string) :
  Sprintf tokenstore.tokenInsertFormat name
  = ("INSERT INTO " ++ name ++ tokenstore.tokenInsertColumns)%string.
Proof. reflexivity. Qed.

Lemma tokenInsert_inj (n m : string) :
  Sprintf tokenstore.tokenInsertFormat n = Sprintf tokenstore.tokenInsertFormat m ->
  n = m.
Proof.
  rewrite !tokenInsert_text. intros Heq.
  injection Heq as Heq. now apply string_append_cancel_r in Heq.
Qed.

Lemma tokenInsert_not_create (n m : string) :
  String.eqb (Sprintf tokenstore.tokenInsertFormat n)
    (Sprintf tokenstore.tokenTableFormat m) = false.
Proof. reflexivity. Qed.

Lemma deleteByCode_not_create (n m : string) :
  String.eqb (Sprintf tokenstore.deleteByCodeFormat n)
    (Sprintf tokenstore.tokenTableFormat m) = false.
Proof. reflexivity. Qed.

Lemma deleteByCode_not_insert (n m : string) :
  String.eqb (Sprintf tokenstore.deleteByCodeFormat n)
    (Sprintf tokenstore.tokenInsertFormat m) = false.
Proof. reflexivity. Qed.

Lemma find_app_last {X} (f : X -> bool) (l : list X) (x : X) :
  f x = true ->
  exists r, find f (l ++ [x]) = Some r /\ f r = true /\ (In r l \/ r = x).
Proof.
  intros Hx. induction l as [|y l IH]; simpl.
  - rewrite Hx. exists x. auto.
  - destruct (f y) eqn:Hy.
    + exists y. auto.
    + destruct IH as [r [Hfind [Hr Hin]]]. exists r. intuition.
Qed.

Lemma find_filter_out {X} (f : X -> bool) (l : list X) :
  find f (filter (fun x => negb (f x)) l) = None.
Proof.
  induction l as [|y l IH]; simpl; [reflexivity|].
  destruct (f y) eqn:Hy; simpl; [exact IH|]. now rewrite Hy.
Qed.

(** A successful insert in the token relation. *)
Lemma tokenTable_insert_ok (t t' : tokenTable) (name : string)
  (code access refresh : string) (codeAt codeIn accessAt accessIn refreshAt refreshIn : Z)
  (data : list byte) :
  Exec t (Sprintf tokenstore.tokenInsertFormat name)
    [VString code; VInt codeAt; VInt codeIn;
     VString access; VInt accessAt; VInt accessIn;
     VString refresh; VInt refreshAt; VInt refreshIn; VBytes data] = (None, t') ->
  name = tokRelName t
  /\ exists stored,
      tokJsonb t data = Some stored
      /\ tokRelName t' = tokRelName t
      /\ tokRelExists t' = true
      /\ tokJsonb t' = tokJsonb t
      /\ exists id,
          tokRows t'
          = tokRows t ++
              [{| tokID := id;
                  tokCode := code; tokCodeCreatedAt := codeAt; tokCodeExpiresIn := codeIn;
                  tokAccess := access; tokAccessCreatedAt := accessAt;
                  tokAccessExpiresIn := accessIn;
                  tokRefresh := refresh; tokRefreshCreatedAt := refreshAt;
                  tokRefreshExpiresIn := refreshIn;
                  tokData := stored |}].
Proof.
  cbn [Exec tokenTable_Adapter]. unfold tokenTable_Exec.
  rewrite tokenInsert_not_create.
  destruct (String.eqb (Sprintf tokenstore.tokenInsertFormat name)
              (Sprintf tokenstore.tokenInsertFormat (tokRelName t))) eqn:Hname.
  - apply String.eqb_eq, tokenInsert_inj in Hname.
    destruct (tokRelExists t) eqn:Hex; cbn [negb]; [|discriminate].
    destruct (tokJsonb t data) as [stored|] eqn:Hjson; [|discriminate].
    intros Heq. injection Heq as Ht'. split; [exact Hname|].
    exists stored. subst t'. cbn. repeat split; eauto.
  - (* another statement: none of them is this insert *)
    intros Hexec. exfalso. revert Hexec.
    change (String.eqb (Sprintf tokenstore.tokenInsertFormat name)
              (Sprintf tokenstore.deleteByCodeFormat (tokRelName t))) with false.
    change (String.eqb (Sprintf tokenstore.tokenInsertFormat name)
              (Sprintf tokenstore.deleteByAccessFormat (tokRelName t))) with false.
    change (String.eqb (Sprintf tokenstore.tokenInsertFormat name)
              (Sprintf tokenstore.deleteByRefreshFormat (tokRelName t))) with false.
    change (String.eqb (Sprintf tokenstore.tokenInsertFormat name)
              (Sprintf tokenstore.gcFormat (tokRelName t))) with false.
    discriminate.
Qed.

Lemma tokenTable_select_code (t : tokenTable) (dst : TokenStoreItem) (code : string) :
  tokRelExists t = true ->
  SelectOne t (TokenDest dst)
    (Sprintf tokenstore.selectByCodeFormat (tokRelName t)) [VString code]
  = match find (fun r => String.eqb (tokCode r) code) (tokRows t) with
    | Some r => ((TokenDest r, None), t)
    | None => ((TokenDest dst, Some ErrNoRows), t)
    end.
Proof.
  intros Hex. cbn [SelectOne tokenTable_Adapter]. unfold tokenTable_SelectOne.
  cbv zeta.
  generalize (Sprintf tokenstore.selectByCodeFormat (tokRelName t)) as q. intros q.
  rewrite (String.eqb_refl q). unfold tokenTable_select. now rewrite Hex.
Qed.

Lemma tokenTable_delete_code (t : tokenTable) (code : string) :
  tokRelExists t = true ->
  Exec t (Sprintf tokenstore.deleteByCodeFormat (tokRelName t)) [VString code]
  = (None,
     withTokRows t (filter (fun r => negb (String.eqb (tokCode r) code)) (tokRows t))).
Proof.
  intros Hex. cbn [Exec tokenTable_Adapter]. unfold tokenTable_Exec. cbv zeta.
  rewrite deleteByCode_not_create, deleteByCode_not_insert.
  generalize (Sprintf tokenstore.deleteByCodeFormat (tokRelName t)) as q. intros q.
  rewrite (String.eqb_refl q). unfold tokenTable_delete. now rewrite Hex.
Qed.

Lemma GetByCode_no_row {I} {TI : TokenInfo I} {JS : Jsoniter I models.Token}
  (s : tokenstore.TokenStore tokenTable) (code : string) :
  String.eqb code "" = false ->
  tokenstore.tableName s = tokRelName (tokenstore.adapter s) ->
  tokRelExists (tokenstore.adapter s) = true ->
  find (fun r => String.eqb (tokCode r) code) (tokRows (tokenstore.adapter s)) = None ->
  fst (tokenstore.GetByCode (I := I) s code) = (None, Some ErrNoRows).
Proof.
  intros Hcode Hname Hex Hfind.
  unfold tokenstore.GetByCode, tokenstore.get. rewrite Hcode, Hname.
  rewrite (tokenTable_select_code (tokenstore.adapter s) _ code Hex).
  now rewrite Hfind.
Qed.

(** C8. For a token with its code populated that [Create] has stored in
    a PostgreSQL relation, jsoniter reading back what the relation holds
    under that code: [GetByCode] with the code returns, without error, a
    token whose code is that code; [RemoveByCode] with the code returns no
    error; and [GetByCode] with the code then returns the "no rows" error
    and no token. *)
Theorem code_life_cycle :
  forall (I : Type) (TI : TokenInfo I) (JS : Jsoniter I models.Token)
         (s : tokenstore.TokenStore tokenTable) (info : I),
    GetCode info <> "" ->
    fst (tokenstore.Create s info) = None ->
    tokenDecodesBack (tokenstore.adapter s) info ->
    codeRowsDecode (I := I) (tokenstore.adapter s) (GetCode info) ->
    let code := GetCode info in
    let created := snd (tokenstore.Create s info) in
    let removed := snd (tokenstore.RemoveByCode (snd (tokenstore.GetByCode (I := I) created code)) code) in
    (exists tok,
        fst (tokenstore.GetByCode (I := I) created code) = (Some tok, None)
        /\ GetCode tok = code)
    /\ fst (tokenstore.RemoveByCode (snd (tokenstore.GetByCode (I := I) created code)) code)
       = None
    /\ fst (tokenstore.GetByCode (I := I) removed code) = (None, Some ErrNoRows).
Proof.
  intros I TI JS s info Hcode Hcreate Hdecode Hrows code created removed.
  subst created removed.
  unfold tokenstore.Create in *. unfold tokenDecodesBack in Hdecode.
  destruct (Marshal (T := models.Token) info) as [data err]. cbn [fst] in Hdecode.
  destruct err as [e|]; [discriminate|].
  destruct (Exec (tokenstore.adapter s) _ _) as [err t'] eqn:Hexec.
  cbn [fst] in Hcreate. subst err. cbn [snd].
  apply tokenTable_insert_ok in Hexec.
  destruct Hexec as [Hname [stored [Hjson [Hname' [Hex' [_ [id Hrows']]]]]]].
  destruct (Hdecode stored Hjson) as [tok0 [Hread0 Hcode0]].
  apply String.eqb_neq in Hcode. fold code in Hcode, Hrows', Hcode0.
  (* the look-up after the insert *)
  assert (Hget : exists tok,
             tokenstore.GetByCode (I := I) (tokenstore.withAdapter s t') code
             = ((Some tok, None), tokenstore.withAdapter s t')
             /\ GetCode tok = code).
  { unfold tokenstore.GetByCode, tokenstore.get. rewrite Hcode.
    cbn [tokenstore.adapter tokenstore.tableName tokenstore.withAdapter].
    rewrite Hname, <- Hname'. rewrite (tokenTable_select_code t' _ code Hex').
    rewrite Hrows'.
    match goal with
    | |- context [find ?f (?l ++ [?x])] =>
        destruct (find_app_last f l x) as [r [Hfind [Hr Hin]]];
        [apply String.eqb_refl | rewrite Hfind]
    end.
    apply String.eqb_eq in Hr.
    assert (Hpayload : exists tok,
               Unmarshal (I := I) (tokData r) = (tok, None) /\ GetCode tok = code).
    { destruct Hin as [Hin | Hnew].
      - now apply Hrows.
      - subst r. cbn [tokData]. now exists tok0. }
    destruct Hpayload as [tok [Hread Htok]].
    exists tok. split; [|exact Htok].
    unfold tokenstore.toTokenInfo. rewrite Hread.
    now destruct s. }
  destruct Hget as [tok [Hget Htok]]. rewrite Hget. cbn [fst snd].
  split; [now exists tok|].
  (* the removal, then the look-up *)
  unfold tokenstore.RemoveByCode, tokenstore.remove.
  cbn [tokenstore.adapter tokenstore.tableName tokenstore.withAdapter].
  rewrite Hname, <- Hname'. rewrite (tokenTable_delete_code t' code Hex').
  cbn [fst snd]. split; [reflexivity|].
  apply GetByCode_no_row.
  - exact Hcode.
  - cbn. now rewrite Hname.
  - exact Hex'.
  - cbn [tokenstore.adapter tokenstore.withAdapter tokRows withTokRows].
    apply (find_filter_out (fun r => String.eqb (tokCode r) code)).
Qed.

Lemma code_life_cycle_witness :
  let s := defaultTokenStore (emptyTokenTable "oauth2_tokens") tokenstore.Stopped in
  let code := GetCode tokenCode1 in
  let created := snd (tokenstore.Create (JS := plainjson.tokenCodec) s tokenCode1) in
  let removed :=
    snd (tokenstore.RemoveByCode
           (snd (tokenstore.GetByCode (JS := plainjson.tokenCodec) created code)) code) in
  (exists tok,
      fst (tokenstore.GetByCode (JS := plainjson.tokenCodec) created code)
      = (Some tok, None)
      /\ GetCode tok = code)
  /\ fst (tokenstore.RemoveByCode
            (snd (tokenstore.GetByCode (JS := plainjson.tokenCodec) created code)) code)
     = None
  /\ fst (tokenstore.GetByCode (JS := plainjson.tokenCodec) removed code)
     = (None, Some ErrNoRows).
Proof.
  intros s.
  refine (code_life_cycle models.Token _ plainjson.tokenCodec s tokenCode1 _ _ _ _).
  - discriminate.
  - reflexivity.
  - intros stored Hstored. injection Hstored as Hstored. subst stored.
    exists tokenCode1. split; reflexivity.
  - intros r [].
Defined.

(** ** The GC loop *)

Section GCFacts.

Import tokenstore.
Context {A : Type} {AD : Adapter A}.

Lemma clean_gc (s : TokenStore A) : gc (clean s) = gc s.
Proof.
  unfold clean. destruct (Exec _ _ _) as [[e|] a]; reflexivity.
Qed.

Lemma clean_tableName (s : TokenStore A) : tableName (clean s) = tableName s.
Proof.
  unfold clean. destruct (Exec _ _ _) as [[e|] a]; reflexivity.
Qed.

Lemma clean_adapter (s : TokenStore A) :
  adapter (clean s) = snd (Exec (adapter s) (Sprintf gcFormat (tableName s)) []).
Proof.
  unfold clean. destruct (Exec _ _ _) as [[e|] a]; reflexivity.
Qed.

Lemma gcLoop_running (n : nat) (s : TokenStore A) :
  gc s = Running -> gc (gcLoop n s) = Running.
Proof.
  revert s; induction n as [|n IH]; intros s Hrun; simpl.
  - exact Hrun.
  - apply IH. unfold tick. rewrite Hrun. now rewrite clean_gc.
Qed.

Context {I : Type} {TI : TokenInfo I} {JS : Jsoniter I models.Token}.

(** The operations of the store do not read its logger. *)
Lemma operations_ignore_logger (s : TokenStore A) (l : Logger) (info : I)
  (key : string) :
  fst (Create (withLogger s l) info) = fst (Create s info)
  /\ (forall format, fst (get (I := I) format (withLogger s l) key)
                     = fst (get (I := I) format s key))
  /\ (forall format, fst (remove format (withLogger s l) key)
                     = fst (remove format s key)).
Proof.
  split; [|split].
  - unfold Create. cbn [adapter tableName withLogger].
    destruct (Marshal _) as [data [e|]]; [reflexivity|].
    now destruct (Exec _ _ _).
  - intros format. unfold get. destruct (String.eqb key ""); [reflexivity|].
    cbn [adapter tableName withLogger].
    destruct (SelectOne _ _ _ _) as [[dst [e|]] a]; reflexivity.
  - intros format. unfold remove. cbn [adapter tableName withLogger].
    destruct (Exec _ _ _) as [[[|msg]|] a]; reflexivity.
Qed.

End GCFacts.

Lemma gcLoop_records {St} (n : nat) (s : tokenstore.TokenStore (mockAdapter St)) :
  tokenstore.gc s = tokenstore.Running ->
  execCalls (tokenstore.adapter (tokenstore.gcLoop n s))
  = execCalls (tokenstore.adapter s) ++ repeat (gcCall (tokenstore.tableName s)) n
  /\ selectOneCalls (tokenstore.adapter (tokenstore.gcLoop n s))
     = selectOneCalls (tokenstore.adapter s).
Proof.
  revert s; induction n as [|n IH]; intros s Hrun; simpl.
  - now rewrite app_nil_r.
  - assert (Htick : tokenstore.tick s = tokenstore.clean s)
      by (unfold tokenstore.tick; now rewrite Hrun).
    rewrite Htick.
    destruct (IH (tokenstore.clean s)) as [Hexec Hsel];
      [now rewrite clean_gc|].
    rewrite Hexec, Hsel, clean_tableName, clean_adapter.
    destruct (mock_Exec_records (tokenstore.adapter s)
                (Sprintf tokenstore.gcFormat (tokenstore.tableName s)) [])
      as [_ [Hexec1 Hsel1]].
    rewrite Hexec1, Hsel1. fold (gcCall (tokenstore.tableName s)).
    split; [|reflexivity]. rewrite <- app_assoc. reflexivity.
Qed.

(** C9. A GC tick whose delete statement fails reports the error to the
    store's logger, as one entry made of the message format and the error,
    and changes nothing else of the store but the adapter the call went
    through; the scheduler is still running. The loop goes on whatever
    the passes return: over any number of ticks it makes one pass per tick.
    The failure reaches no caller: [Create], the look-ups and the removals
    return on the store after the failed tick what they return on the
    store without the report. *)
Theorem gc_failure_isolation :
  (forall (A : Type) (AD : Adapter A)
          (I : Type) (TI : TokenInfo I) (JS : Jsoniter I models.Token)
          (s : tokenstore.TokenStore A) (e : error) (a : A),
      tokenstore.gc s = tokenstore.Running ->
      Exec (tokenstore.adapter s)
        (Sprintf tokenstore.gcFormat (tokenstore.tableName s)) [] = (Some e, a) ->
      let quiet := tokenstore.withAdapter s a in
      tokenstore.tick s
      = tokenstore.withLogger quiet
          (Printf (tokenstore.logger s) tokenstore.gcErrorFormat [VError e])
      /\ tokenstore.gc (tokenstore.tick s) = tokenstore.Running
      /\ (forall n, tokenstore.gc (tokenstore.gcLoop n s) = tokenstore.Running)
      /\ (forall (info : I) (key : string),
             fst (tokenstore.Create (tokenstore.tick s) info)
             = fst (tokenstore.Create quiet info)
             /\ fst (tokenstore.GetByCode (I := I) (tokenstore.tick s) key)
                = fst (tokenstore.GetByCode (I := I) quiet key)
             /\ fst (tokenstore.GetByAccess (I := I) (tokenstore.tick s) key)
                = fst (tokenstore.GetByAccess (I := I) quiet key)
             /\ fst (tokenstore.GetByRefresh (I := I) (tokenstore.tick s) key)
                = fst (tokenstore.GetByRefresh (I := I) quiet key)
             /\ fst (tokenstore.RemoveByCode (tokenstore.tick s) key)
                = fst (tokenstore.RemoveByCode quiet key)
             /\ fst (tokenstore.RemoveByAccess (tokenstore.tick s) key)
                = fst (tokenstore.RemoveByAccess quiet key)
             /\ fst (tokenstore.RemoveByRefresh (tokenstore.tick s) key)
                = fst (tokenstore.RemoveByRefresh quiet key)))
  /\ (forall (St : Type) (s : tokenstore.TokenStore (mockAdapter St)) (n : nat),
         tokenstore.gc s = tokenstore.Running ->
         tokenstore.gc (tokenstore.gcLoop n s) = tokenstore.Running
         /\ execCalls (tokenstore.adapter (tokenstore.gcLoop n s))
            = execCalls (tokenstore.adapter s)
                ++ repeat (gcCall (tokenstore.tableName s)) n
         /\ selectOneCalls (tokenstore.adapter (tokenstore.gcLoop n s))
            = selectOneCalls (tokenstore.adapter s)).
Proof.
  split.
  - intros A AD I TI JS s e a Hrun Hexec quiet.
    assert (Htick : tokenstore.tick s
                    = tokenstore.withLogger quiet
                        (Printf (tokenstore.logger s) tokenstore.gcErrorFormat
                           [VError e])).
    { unfold tokenstore.tick. rewrite Hrun.
      unfold tokenstore.clean. now rewrite Hexec. }
    split; [exact Htick|]. split; [|split].
    + rewrite Htick. exact Hrun.
    + intros n. now apply gcLoop_running.
    + intros info key. rewrite Htick.
      destruct (operations_ignore_logger quiet
                  (Printf (tokenstore.logger s) tokenstore.gcErrorFormat [VError e])
                  info key) as [Hcreate [Hget Hremove]].
      split; [exact Hcreate|].
      unfold tokenstore.GetByCode, tokenstore.GetByAccess, tokenstore.GetByRefresh,
        tokenstore.RemoveByCode, tokenstore.RemoveByAccess, tokenstore.RemoveByRefresh.
      repeat split; first [apply Hget | apply Hremove].
  - intros St s n Hrun. split.
    + now apply gcLoop_running.
    + now apply gcLoop_records.
Qed.

Lemma gc_failure_isolation_witness :
  let s := defaultTokenStore failingExec tokenstore.Running in
  formats (tokenstore.logger (tokenstore.tick s)) = [tokenstore.gcErrorFormat]
  /\ logArgs (tokenstore.logger (tokenstore.tick s))
     = [[VError (errorString "connection refused")]]
  /\ tokenstore.gc (tokenstore.gcLoop 5 s) = tokenstore.Running
  /\ length (execCalls (tokenstore.adapter (tokenstore.gcLoop 5 s))) = 5.
Proof.
  intros s.
  destruct gc_failure_isolation as [Hfail Hloop].
  destruct (Hfail (mockAdapter unit) _ models.Token _ plainjson.tokenCodec s
              (errorString "connection refused")
              (snd (Exec failingExec (Sprintf tokenstore.gcFormat "oauth2_tokens") [])))
    as [Htick _]; [reflexivity | reflexivity |].
  destruct (Hloop unit s 5) as [Hrun [Hexec _]]; [reflexivity|].
  rewrite Htick, Hrun, Hexec. repeat split.
Defined.

(** ** The tests on the mock adapter *)

(** A recording mock answers as the adapter it wraps and carries that
    adapter's next state. *)
Lemma recording_answers {A} {AD : Adapter A} (a : A) (q : string) (v : list iface) :
  fst (Exec (recording a) q v) = fst (Exec a q v)
  /\ captured (snd (Exec (recording a) q v)) = snd (Exec a q v)
  /\ execCalls (snd (Exec (recording a) q v)) = [{| query := q; args := v |}].
Proof.
  cbn [Exec mockAdapter_Adapter]. unfold mockAdapter_Exec, recording.
  cbn [execCallback captured execCalls].
  destruct (Exec a q v) as [err a']. repeat split.
Qed.

(** [TestTokenStore_initTable]: one [Exec] call, no [SelectOne] call, and
    "CREATE TABLE IF NOT EXISTS" at position 1 of the statement. *)
Example TestTokenStore_initTable :
  exists store,
    tokenstore.NewTokenStore new_mockAdapter [tokenstore.WithTokenStoreGCDisabled]
    = (Some store, None)
    /\ length (execCalls (tokenstore.adapter store)) = 1
    /\ length (selectOneCalls (tokenstore.adapter store)) = 0
    /\ map (fun c => strings_Index (query c) "CREATE TABLE IF NOT EXISTS")
         (execCalls (tokenstore.adapter store)) = [1%Z].
Proof.
  eexists. split; [vm_compute; reflexivity|].
  vm_compute. repeat split.
Qed.

(** [TestTokenStore_gc], over the four ticks of its five seconds: every
    call is an [Exec] of a statement that starts with "DELETE FROM". *)
Example TestTokenStore_gc :
  exists store,
    tokenstore.NewTokenStore new_mockAdapter
      [tokenstore.WithTokenStoreInitTableDisabled;
       tokenstore.WithTokenStoreGCInterval 1000000000]
    = (Some store, None)
    /\ map (fun c => strings_Index (query c) "DELETE FROM")
         (execCalls (tokenstore.adapter (tokenstore.gcLoop 4 store)))
       = [0%Z; 0%Z; 0%Z; 0%Z]
    /\ selectOneCalls (tokenstore.adapter (tokenstore.gcLoop 4 store)) = []
    /\ execCalls (tokenstore.adapter
                    (tokenstore.gcLoop 4 (snd (tokenstore.Close store)))) = [].
Proof.
  eexists. split; [vm_compute; reflexivity|].
  vm_compute. repeat split.
Qed.

(** [runClientStoreTest] and [runTokenStoreCodeTest] on fresh relations. *)
Example runClientStoreTest :
  exists store,
    NewClientStore (emptyClientTable "client_1") [WithClientStoreTableName "client_1"]
    = (Some store, None)
    /\ fst (Create (JS := plainjson.clientCodec) store clientC1) = None
    /\ createThenGetByID (JS := plainjson.clientCodec) store clientC1
       = (Some clientC1, None).
Proof.
  eexists. split; [vm_compute; reflexivity|].
  vm_compute. repeat split.
Qed.

(* ================================================================== *)
(** * Further properties of the client store and of the mock adapter *)
(* ================================================================== *)

(** ** The traffic of [GetByID] *)

Lemma mock_SelectOne_records {St} (a : mockAdapter St) (dst : dest) (q : string)
  (v : list iface) :
  selectOneCalls (snd (SelectOne a dst q v))
  = selectOneCalls a ++ [{| query := q; args := v |}]
  /\ execCalls (snd (SelectOne a dst q v)) = execCalls a.
Proof.
  cbn [SelectOne mockAdapter_Adapter]. unfold mockAdapter_SelectOne.
  destruct (selectCallback a) as [cb|].
  - destruct (cb (captured a) dst q v); cbn [snd execCalls selectOneCalls]. auto.
  - cbn [snd execCalls selectOneCalls]. auto.
Qed.

Lemma GetByID_adapter {A} {AD : Adapter A} {I} {JS : Jsoniter I models.Client}
  (s : ClientStore A) (id : string) :
  id <> "" ->
  adapter (snd (GetByID (I := I) s id))
  = snd (SelectOne (adapter s) (ClientDest zeroClientStoreItem)
           (Sprintf clientSelectFormat (tableName s)) [VString id]).
Proof.
  intros Hid. apply String.eqb_neq in Hid.
  unfold GetByID. rewrite Hid.
  destruct (SelectOne _ _ _ _) as [[dst [e|]] a]; reflexivity.
Qed.

(** X1. For a non-empty id, [GetByID] makes exactly one [SelectOne] call,
    of the select statement of the store's table with the id as its only
    argument, and no [Exec] call, whatever the adapter answers: a look-up
    never writes. *)
Theorem GetByID_one_select :
  forall (St : Type) (I : Type) (JS : Jsoniter I models.Client)
         (s : ClientStore (mockAdapter St)) (id : string),
    id <> "" ->
    selectOneCalls (adapter (snd (GetByID (I := I) s id)))
    = selectOneCalls (adapter s)
        ++ [{| query := Sprintf clientSelectFormat (tableName s);
               args := [VString id] |}]
    /\ execCalls (adapter (snd (GetByID (I := I) s id))) = execCalls (adapter s).
Proof.
  intros St I JS s id Hid.
  rewrite (GetByID_adapter s id Hid).
  exact (mock_SelectOne_records (adapter s) (ClientDest zeroClientStoreItem)
           (Sprintf clientSelectFormat (tableName s)) [VString id]).
Qed.

Lemma GetByID_one_select_witness :
  let s := defaultClientStore new_mockAdapter in
  selectOneCalls (adapter (snd (GetByID (JS := plainjson.clientCodec) s "c1")))
  = [{| query := "SELECT * FROM oauth2_clients WHERE id = $1";
        args := [VString "c1"] |}]
  /\ execCalls (adapter (snd (GetByID (JS := plainjson.clientCodec) s "c1"))) = [].
Proof.
  intros s.
  destruct (GetByID_one_select unit models.Client plainjson.clientCodec s "c1")
    as [Hsel Hexec]; [discriminate|].
  rewrite Hsel, Hexec. split; reflexivity.
Defined.

(** ** The results of [GetByID] *)

(** X2. [GetByID] returns a nil client in two cases only: the id is empty,
    or [SelectOne] returned an error. Once a row is selected the client is
    not nil, whatever the decoding of its payload gives. *)
Theorem GetByID_nil_client_iff :
  forall (A : Type) (AD : Adapter A) (I : Type) (JS : Jsoniter I models.Client)
         (s : ClientStore A) (id : string),
    fst (fst (GetByID (I := I) s id)) = None
    <-> id = ""
        \/ snd (fst (SelectOne (adapter s) (ClientDest zeroClientStoreItem)
                       (Sprintf clientSelectFormat (tableName s)) [VString id]))
           <> None.
Proof.
  intros A AD I JS s id. unfold GetByID.
  destruct (String.eqb id "") eqn:Hid.
  - apply String.eqb_eq in Hid. cbn [fst]. tauto.
  - apply String.eqb_neq in Hid.
    destruct (SelectOne _ _ _ _) as [[dst [e|]] a]; cbn [fst snd].
    + split; [intros _; right; discriminate | reflexivity].
    + unfold toClientInfo. destruct (Unmarshal _) as [cm err]. cbn [fst].
      split; [discriminate | intros [Hempty | Herr]; [contradiction | now elim Herr]].
Qed.

(** X3. When [SelectOne] selects a row, [GetByID] returns the client
    jsoniter decodes from the row's [data] and the error of that decoding:
    when the payload does not decode, the caller gets the error together
    with a client that is not nil. The [id], [secret] and [domain] columns
    of the row are not read. *)
Theorem GetByID_decodes_payload :
  forall (A : Type) (AD : Adapter A) (I : Type) (JS : Jsoniter I models.Client)
         (s : ClientStore A) (id : string) (item : ClientStoreItem) (a : A),
    id <> "" ->
    SelectOne (adapter s) (ClientDest zeroClientStoreItem)
      (Sprintf clientSelectFormat (tableName s)) [VString id]
    = ((ClientDest item, None), a) ->
    GetByID (I := I) s id
    = ((Some (fst (Unmarshal (I := I) (Data item))),
        snd (Unmarshal (I := I) (Data item))), withAdapter s a).
Proof.
  intros A AD I JS s id item a Hid Hsel. apply String.eqb_neq in Hid.
  unfold GetByID. rewrite Hid, Hsel. unfold toClientInfo.
  now destruct (Unmarshal _).
Qed.

Lemma GetByID_decodes_payload_witness :
  fst (GetByID (JS := plainjson.clientCodec) (defaultClientStore brokenClientTable) "c1")
  = (Some models.zeroClient, Some (errorString "invalid JSON document")).
Proof.
  rewrite (GetByID_decodes_payload clientTable _ models.Client plainjson.clientCodec
             (defaultClientStore brokenClientTable) "c1"
             {| ID := "c1"; Secret := "s1"; Domain := "d1"; Data := [] |}
             brokenClientTable).
  - reflexivity.
  - discriminate.
  - reflexivity.
Defined.

(** ** The statements *)

Lemma string_append_same_length (a b x y : string) :
  String.length a = String.length b ->
  (a ++ x)%string = (b ++ y)%string -> a = b.
Proof.
  revert b; induction a as [|c a IH]; intros [|d b] Hlen Heq;
    simpl in Hlen; try discriminate.
  - reflexivity.
  - simpl in Heq. injection Heq as Hc Hrest. subst d. f_equal.
    apply IH; [now injection Hlen | exact Hrest].
Qed.

Lemma clientSelect_inj (n m : string) :
  Sprintf clientSelectFormat n = Sprintf clientSelectFormat m -> n = m.
Proof.
  change (Sprintf clientSelectFormat n)
    with ("SELECT * FROM " ++ n ++ " WHERE id = $1")%string.
  change (Sprintf clientSelectFormat m)
    with ("SELECT * FROM " ++ m ++ " WHERE id = $1")%string.
  intros Heq. injection Heq as Heq. now apply string_append_cancel_r in Heq.
Qed.

Lemma clientTable_inj (n m : string) :
  Sprintf clientTableFormat n = Sprintf clientTableFormat m -> n = m.
Proof.
  rewrite !clientTable_text. intros Heq.
  assert (Hlen : String.length n = String.length m).
  { apply (f_equal String.length) in Heq.
    repeat (rewrite string_length_append in Heq; simpl in Heq).
    lia. }
  unfold nl in Heq. simpl in Heq. injection Heq as Heq.
  now apply (string_append_same_length n m) in Heq.
Qed.

(** X4. The three statements of the client store carry the table name and
    nothing else of the call: the text is the same for every id and every
    client, which travel as arguments, and two stores on tables of
    different names never issue the same statement. *)
Theorem statements_name_their_table :
  forall n m : string,
    (Sprintf clientTableFormat n = Sprintf clientTableFormat m -> n = m)
    /\ (Sprintf clientSelectFormat n = Sprintf clientSelectFormat m -> n = m)
    /\ (Sprintf clientInsertFormat n = Sprintf clientInsertFormat m -> n = m)
    /\ Sprintf clientSelectFormat n = ("SELECT * FROM " ++ n ++ " WHERE id = $1")%string
    /\ Sprintf clientInsertFormat n
       = ("INSERT INTO " ++ n
            ++ " (id, secret, domain, data) VALUES ($1, $2, $3, $4)")%string.
Proof.
  intros n m. split; [apply clientTable_inj|].
  split; [apply clientSelect_inj|]. split; [apply clientInsert_inj|].
  split; reflexivity.
Qed.

(** ** Runs of operations *)

Section Runs.

Context {A : Type} {AD : Adapter A}.
Context {I : Type} {CI : ClientInfo I} {JS : Jsoniter I models.Client}.

Lemma Create_adapter (s : ClientStore A) (info : I) :
  snd (Create s info)
  = if callsExec (OpCreate info)
    then withAdapter s
           (snd (Exec (adapter s) (query (insertCall (tableName s) info
                                            (fst (Marshal (T := models.Client) info))))
                   (args (insertCall (tableName s) info
                            (fst (Marshal (T := models.Client) info))))))
    else s.
Proof.
  unfold Create, callsExec.
  destruct (Marshal (T := models.Client) info) as [data [e|]]; cbn [fst snd].
  - reflexivity.
  - cbn [insertCall query args]. now destruct (Exec _ _ _).
Qed.

Lemma GetByID_store (s : ClientStore A) (id : string) :
  snd (GetByID (I := I) s id)
  = if callsSelectOne (I := I) (OpGetByID id)
    then withAdapter s
           (snd (SelectOne (adapter s) (ClientDest zeroClientStoreItem)
                   (Sprintf clientSelectFormat (tableName s)) [VString id]))
    else s.
Proof.
  unfold GetByID, callsSelectOne.
  destruct (String.eqb id ""); cbn [negb]; [reflexivity|].
  destruct (SelectOne _ _ _ _) as [[dst [e|]] a]; reflexivity.
Qed.

Lemma runClientOp_configuration (s : ClientStore A) (op : clientOp I) :
  tableName (runClientOp s op) = tableName s
  /\ logger (runClientOp s op) = logger s
  /\ initTableDisabled (runClientOp s op) = initTableDisabled s.
Proof.
  destruct op as [info | id]; unfold runClientOp.
  - rewrite Create_adapter. destruct (callsExec _); repeat split.
  - rewrite GetByID_store. destruct (callsSelectOne _); repeat split.
Qed.

End Runs.

(** X5. Whatever operations are run on a client store, in whatever order
    and with whatever outcome, the store keeps its table name, its
    table-creation flag and its logger, to which nothing is printed: the
    operations change nothing of the store but its adapter. *)
Theorem operations_keep_configuration :
  forall (A : Type) (AD : Adapter A)
         (I : Type) (CI : ClientInfo I) (JS : Jsoniter I models.Client)
         (ops : list (clientOp I)) (s : ClientStore A),
    tableName (runClientOps s ops) = tableName s
    /\ logger (runClientOps s ops) = logger s
    /\ initTableDisabled (runClientOps s ops) = initTableDisabled s.
Proof.
  intros A AD I CI JS ops. unfold runClientOps.
  induction ops as [|op ops IH]; intros s; cbn [fold_left].
  - repeat split.
  - destruct (IH (runClientOp s op)) as [Hname [Hlog Hflag]].
    destruct (runClientOp_configuration s op) as [Hname1 [Hlog1 Hflag1]].
    rewrite Hname, Hlog, Hflag. auto.
Qed.

(** X6. On an adapter that records its calls, a run of operations adds
    one [Exec] call for each [Create] whose payload serializes and one
    [SelectOne] call for each [GetByID] with a non-empty id, and no other
    call: an operation never calls the adapter twice, whatever the adapter
    answers, and never calls the capability of the other kind. *)
Theorem operations_call_once :
  forall (St : Type)
         (I : Type) (CI : ClientInfo I) (JS : Jsoniter I models.Client)
         (ops : list (clientOp I)) (s : ClientStore (mockAdapter St)),
    length (execCalls (adapter (runClientOps s ops)))
    = length (execCalls (adapter s)) + length (filter callsExec ops)
    /\ length (selectOneCalls (adapter (runClientOps s ops)))
       = length (selectOneCalls (adapter s)) + length (filter callsSelectOne ops).
Proof.
  intros St I CI JS ops. unfold runClientOps.
  induction ops as [|op ops IH]; intros s; cbn [fold_left filter].
  - cbn [length]. lia.
  - destruct (IH (runClientOp s op)) as [Hexec Hsel]. rewrite Hexec, Hsel.
    destruct op as [info | id]; unfold runClientOp.
    + rewrite Create_adapter.
      replace (callsSelectOne (OpCreate info)) with false by reflexivity.
      destruct (callsExec (OpCreate info)); cbn [length]; [|lia].
      unfold withAdapter; cbn [adapter].
      match goal with
      | |- context [Exec ?a ?q ?v] =>
          destruct (mock_Exec_records a q v) as [_ [He Hs]]
      end.
      rewrite He, Hs, length_app. cbn [length]. lia.
    + rewrite GetByID_store.
      replace (callsExec (OpGetByID id)) with false by reflexivity.
      destruct (callsSelectOne (OpGetByID id)); cbn [length]; [|lia].
      unfold withAdapter; cbn [adapter].
      match goal with
      | |- context [SelectOne ?a ?d ?q ?v] =>
          destruct (mock_SelectOne_records a d q v) as [Hs He]
      end.
      rewrite He, Hs, length_app. cbn [length]. lia.
Qed.

(** ** The client store on a PostgreSQL relation *)

Lemma withAdapter_adapter {A} (s : ClientStore A) : withAdapter s (adapter s) = s.
Proof. now destruct s. Qed.

(** An insert either appends its row, or fails and leaves the relation as
    it was. *)
Lemma clientTable_insert_cases (t : clientTable) (name id secret domain : string)
  (data : list byte) :
  let r := Exec t (Sprintf clientInsertFormat name)
             [VString id; VString secret; VString domain; VBytes data] in
  (fst r = None /\ holdsID t id = false)
  \/ (fst r <> None /\ snd r = t).
Proof.
  cbv zeta. cbn [Exec clientTable_Adapter]. unfold clientTable_Exec, holdsID.
  rewrite clientInsert_not_create.
  destruct (String.eqb _ _); [|right; split; [discriminate | reflexivity]].
  destruct (relExists t); cbn [negb];
    [|right; split; [discriminate | reflexivity]].
  destruct (jsonb t data) as [stored|];
    [|right; split; [discriminate | reflexivity]].
  destruct (existsb (clientRowHasID id) (rows t));
    [right; split; [discriminate | reflexivity] | left; split; reflexivity].
Qed.

Section OnRelation.

Context {I : Type} {CI : ClientInfo I} {JS : Jsoniter I models.Client}.

Lemma Create_failure_unchanged (s : ClientStore clientTable) (info : I) :
  fst (Create s info) <> None -> snd (Create s info) = s.
Proof.
  unfold Create. destruct (Marshal (T := models.Client) info) as [data [e|]];
    [reflexivity|].
  destruct (clientTable_insert_cases (adapter s) (tableName s) (GetID info)
              (GetSecret info) (GetDomain info) data) as [[Hok _] | [_ Hsame]];
    destruct (Exec _ _ _) as [err t']; cbn [fst snd] in *.
  - intros Herr. contradiction.
  - intros _. subst t'. apply withAdapter_adapter.
Qed.

Lemma Create_success (s : ClientStore clientTable) (info : I) :
  fst (Create s info) = None ->
  exists stored,
    snd (Marshal (T := models.Client) info) = None
    /\ jsonb (adapter s) (fst (Marshal (T := models.Client) info)) = Some stored
    /\ attached s
    /\ holdsID (adapter s) (GetID info) = false
    /\ snd (Create s info)
       = withAdapter s
           {| relName := relName (adapter s); relExists := true;
              rows := rows (adapter s)
                        ++ [{| ID := GetID info; Secret := GetSecret info;
                               Domain := GetDomain info; Data := stored |}];
              jsonb := jsonb (adapter s) |}.
Proof.
  unfold Create, attached, holdsID.
  destruct (Marshal (T := models.Client) info) as [data [e|]]; [discriminate|].
  destruct (Exec _ _ _) as [err t'] eqn:Hexec. cbn [fst snd]. intros Herr. subst err.
  pose proof Hexec as Hcases.
  apply clientTable_insert_ok in Hexec.
  destruct Hexec as [Hname [stored [Hjson [Hfresh Ht']]]].
  exists stored. repeat split; try assumption.
  - revert Hcases. cbn [Exec clientTable_Adapter]. unfold clientTable_Exec.
    rewrite clientInsert_not_create, Hname.
    generalize (Sprintf clientInsertFormat (relName (adapter s))) as q. intros q.
    rewrite (String.eqb_refl q).
    destruct (relExists (adapter s)); [reflexivity | discriminate].
  - now subst t'.
Qed.

(** [GetByID] on a store set on its relation. *)
Lemma GetByID_attached (s : ClientStore clientTable) (id : string) :
  attached s -> id <> "" ->
  GetByID (I := I) s id
  = (match find (clientRowHasID id) (rows (adapter s)) with
     | Some r => toClientInfo (I := I) s (Data r)
     | None => (None, Some ErrNoRows)
     end, s).
Proof.
  intros [Hname Hex] Hid. apply String.eqb_neq in Hid.
  unfold GetByID. rewrite Hid, Hname.
  cbn [SelectOne clientTable_Adapter]. unfold clientTable_SelectOne.
  generalize (Sprintf clientSelectFormat (relName (adapter s))) as q. intros q.
  rewrite (String.eqb_refl q), Hex. cbn [negb].
  destruct (find _ _) as [r|]; now rewrite withAdapter_adapter.
Qed.

End OnRelation.

Lemma find_none_existsb {X} (f : X -> bool) (l : list X) :
  find f l = None <-> existsb f l = false.
Proof.
  induction l as [|x l IH]; simpl; [tauto|].
  destruct (f x); simpl; [split; discriminate | exact IH].
Qed.

Lemma find_app_other {X} (f : X -> bool) (l : list X) (x : X) :
  f x = false -> find f (l ++ [x]) = find f l.
Proof.
  intros Hx. induction l as [|y l IH]; simpl.
  - now rewrite Hx.
  - destruct (f y); [reflexivity | exact IH].
Qed.

Section OnRelationFacts.

Context {I : Type} {CI : ClientInfo I} {JS : Jsoniter I models.Client}.

(** X7. On a store set on its relation, [GetByID] with a non-empty id
    answers with a nil client and the "no rows" error exactly when the
    relation holds no row under that id. *)
Theorem GetByID_no_rows_iff (s : ClientStore clientTable) (id : string) :
  attached s -> id <> "" ->
  fst (GetByID (I := I) s id) = (None, Some ErrNoRows)
  <-> holdsID (adapter s) id = false.
Proof.
  intros Hs Hid. rewrite (GetByID_attached s id Hs Hid). cbn [fst].
  unfold holdsID. rewrite <- find_none_existsb.
  destruct (find _ _) as [r|].
  - unfold toClientInfo. destruct (Unmarshal _) as [cm err].
    split; discriminate.
  - tauto.
Qed.

(** X8. [Create] of a client whose id the relation already holds fails and
    changes nothing: the store, and so every row, is as before. [Create]
    does not replace a client. *)
Theorem Create_taken_id_rejected (s : ClientStore clientTable) (info : I) :
  holdsID (adapter s) (GetID info) = true ->
  fst (Create s info) <> None /\ snd (Create s info) = s.
Proof.
  intros Hheld.
  assert (Hfail : fst (Create s info) <> None).
  { intros Hok. destruct (Create_success s info Hok) as [stored [_ [_ [_ [Hfresh _]]]]].
    rewrite Hheld in Hfresh. discriminate. }
  split; [exact Hfail | now apply Create_failure_unchanged].
Qed.

Lemma Create_frame (s : ClientStore clientTable) (info : I) (id : string) :
  id <> GetID info ->
  fst (GetByID (I := I) (snd (Create s info)) id) = fst (GetByID (I := I) s id).
Proof.
  intros Hother.
  destruct (fst (Create s info)) as [e|] eqn:Hcreate.
  - rewrite Create_failure_unchanged; [reflexivity | now rewrite Hcreate].
  - destruct (Create_success s info Hcreate)
      as [stored [_ [_ [[Hname Hex] [_ Hs']]]]].
    rewrite Hs'.
    destruct (String.eqb id "") eqn:Hid.
    + apply String.eqb_eq in Hid. subst id. reflexivity.
    + apply String.eqb_neq in Hid.
      rewrite (GetByID_attached s id (conj Hname Hex) Hid).
      rewrite GetByID_attached; [| split; [exact Hname | reflexivity] | exact Hid].
      cbn [fst adapter withAdapter rows].
      rewrite find_app_other; [reflexivity|].
      unfold clientRowHasID. cbn [ID]. apply String.eqb_neq. congruence.
Qed.

(** X9. [Create] of a client does not touch the other clients: whether it
    succeeds or fails, [GetByID] with any other id returns afterwards what
    it returned before. *)
Theorem Create_keeps_other_clients (s : ClientStore clientTable) (info : I)
  (id : string) :
  id <> GetID info ->
  fst (GetByID (I := I) (snd (Create s info)) id) = fst (GetByID (I := I) s id).
Proof. apply Create_frame. Qed.

End OnRelationFacts.

Lemma GetByID_no_rows_iff_witness :
  fst (GetByID (JS := plainjson.clientCodec) (defaultClientStore takenClientTable) "c2")
  = (None, Some ErrNoRows).
Proof.
  apply (GetByID_no_rows_iff (JS := plainjson.clientCodec)
           (defaultClientStore takenClientTable) "c2").
  - split; reflexivity.
  - discriminate.
  - reflexivity.
Defined.

Lemma Create_taken_id_rejected_witness :
  snd (Create (JS := plainjson.clientCodec) (defaultClientStore takenClientTable) clientC1)
  = defaultClientStore takenClientTable.
Proof.
  apply (Create_taken_id_rejected (JS := plainjson.clientCodec)
           (defaultClientStore takenClientTable) clientC1).
  reflexivity.
Defined.

Lemma Create_keeps_other_clients_witness :
  fst (GetByID (JS := plainjson.clientCodec)
         (snd (Create (JS := plainjson.clientCodec)
                 (defaultClientStore takenClientTable) clientC2)) "c1")
  = fst (GetByID (JS := plainjson.clientCodec) (defaultClientStore takenClientTable) "c1").
Proof.
  apply (Create_keeps_other_clients (JS := plainjson.clientCodec)
           (defaultClientStore takenClientTable) clientC2 "c1").
  discriminate.
Defined.

(** ** Several clients *)

Section SeveralClients.

Context {I : Type} {CI : ClientInfo I} {JS : Jsoniter I models.Client}.

Lemma Create_succeeds (s : ClientStore clientTable) (info : I) :
  attached s ->
  holdsID (adapter s) (GetID info) = false ->
  storesAndDecodes (adapter s) info ->
  fst (Create s info) = None.
Proof.
  intros [Hname Hex] Hfresh [Hser [stored [Hjson _]]].
  unfold Create. destruct (Marshal (T := models.Client) info) as [data err].
  cbn [fst snd] in Hser, Hjson. subst err.
  cbn [Exec clientTable_Adapter]. unfold clientTable_Exec.
  rewrite clientInsert_not_create, Hname.
  generalize (Sprintf clientInsertFormat (relName (adapter s))) as q. intros q.
  rewrite (String.eqb_refl q), Hex, Hjson. cbn [negb].
  unfold holdsID in Hfresh. now rewrite Hfresh.
Qed.

Lemma Create_then_GetByID (s : ClientStore clientTable) (info : I) :
  GetID info <> "" ->
  fst (Create s info) = None ->
  storesAndDecodes (adapter s) info ->
  exists c,
    fst (GetByID (I := I) (snd (Create s info)) (GetID info)) = (Some c, None)
    /\ sameClient c info.
Proof.
  intros Hid Hcreate [_ [stored0 [Hjson0 [c [Hread Hsame]]]]].
  destruct (Create_success s info Hcreate)
    as [stored [_ [Hjson [[Hname Hex] [Hfresh Hs']]]]].
  rewrite Hjson0 in Hjson. injection Hjson as Hstored. subst stored0.
  exists c. split; [|exact Hsame].
  rewrite Hs'.
  rewrite GetByID_attached; [| split; [exact Hname | reflexivity] | exact Hid].
  cbn [fst adapter withAdapter rows].
  rewrite (find_fresh _ _ _ Hfresh); [| apply String.eqb_refl].
  unfold toClientInfo. cbn [Data]. now rewrite Hread.
Qed.

Lemma createAll_keeps_other_clients (infos : list I) (s : ClientStore clientTable)
  (id : string) :
  ~ In id (map GetID infos) ->
  fst (GetByID (I := I) (snd (createAll s infos)) id) = fst (GetByID (I := I) s id).
Proof.
  revert s; induction infos as [|info infos IH]; intros s Hnot; cbn [createAll].
  - reflexivity.
  - cbn [map In] in Hnot.
    destruct (Create s info) as [err s1] eqn:Hcreate.
    destruct (createAll s1 infos) as [errs s2] eqn:Hrest. cbn [snd].
    replace s2 with (snd (createAll s1 infos)) by now rewrite Hrest.
    rewrite IH by tauto.
    replace s1 with (snd (Create s info)) by now rewrite Hcreate.
    apply Create_frame. intros Heq. apply Hnot. now left.
Qed.

(** X10. On a store set on its relation, creating in turn clients whose
    ids are not empty, differ from one another and are not held yet, each
    payload being one the relation stores and jsoniter reads back: every
    [Create] returns no error, and afterwards [GetByID] returns each of the
    clients under its id, the earlier ones as well as the last. *)
Theorem createAll_round_trip (infos : list I) (s : ClientStore clientTable) :
  attached s ->
  NoDup (map GetID infos) ->
  (forall info, In info infos ->
                GetID info <> ""
                /\ holdsID (adapter s) (GetID info) = false
                /\ storesAndDecodes (adapter s) info) ->
  fst (createAll s infos) = map (fun _ => None) infos
  /\ forall info, In info infos ->
       exists c,
         fst (GetByID (I := I) (snd (createAll s infos)) (GetID info)) = (Some c, None)
         /\ sameClient c info.
Proof.
  revert s; induction infos as [|info infos IH]; intros s Hs Hnodup Hall.
  - split; [reflexivity | intros info []].
  - cbn [map] in Hnodup. apply NoDup_cons_iff in Hnodup.
    destruct Hnodup as [Hnew Hnodup].
    destruct (Hall info (or_introl eq_refl)) as [Hid [Hfresh Hcodec]].
    pose proof (Create_succeeds s info Hs Hfresh Hcodec) as Hcreate.
    destruct (Create_success s info Hcreate)
      as [stored [_ [_ [[Hname Hex] [_ Hs1]]]]].
    pose proof (Create_then_GetByID s info Hid Hcreate Hcodec) as Hfirst.
    assert (Hs1' : attached (snd (Create s info))).
    { rewrite Hs1. split; [exact Hname | reflexivity]. }
    assert (Hall1 : forall info', In info' infos ->
                GetID info' <> ""
                /\ holdsID (adapter (snd (Create s info))) (GetID info') = false
                /\ storesAndDecodes (adapter (snd (Create s info))) info').
    { intros info' Hin.
      destruct (Hall info' (or_intror Hin)) as [Hid' [Hfresh' Hcodec']].
      split; [exact Hid'|]. rewrite Hs1. cbn [adapter withAdapter]. split.
      - unfold holdsID in *. cbn [rows]. rewrite existsb_app, Hfresh'.
        cbn [existsb]. unfold clientRowHasID. cbn [ID].
        rewrite orb_false_r. apply String.eqb_neq. intros Heq.
        apply Hnew. rewrite Heq. now apply in_map.
      - exact Hcodec'. }
    destruct (IH (snd (Create s info)) Hs1' Hnodup Hall1) as [Herrs Hrest].
    cbn [createAll].
    destruct (Create s info) as [err s1] eqn:Hc. cbn [fst snd] in *. subst err.
    destruct (createAll s1 infos) as [errs s2] eqn:Hcs. cbn [fst snd] in *.
    split; [now rewrite Herrs|].
    intros info' [Heq | Hin].
    + subst info'.
      replace s2 with (snd (createAll s1 infos)) by now rewrite Hcs.
      rewrite (createAll_keeps_other_clients infos s1 (GetID info) Hnew).
      exact Hfirst.
    + now apply Hrest.
Qed.

End SeveralClients.

Lemma createAll_round_trip_witness :
  let s := defaultClientStore (emptyClientTable "oauth2_clients") in
  fst (createAll (JS := plainjson.clientCodec) s [clientC1; clientC2]) = [None; None]
  /\ forall info, In info [clientC1; clientC2] ->
       exists c,
         fst (GetByID (JS := plainjson.clientCodec)
                (snd (createAll (JS := plainjson.clientCodec) s [clientC1; clientC2]))
                (GetID info)) = (Some c, None)
         /\ sameClient c info.
Proof.
  intros s.
  apply (createAll_round_trip (JS := plainjson.clientCodec) [clientC1; clientC2] s).
  - split; reflexivity.
  - repeat constructor; cbn; intuition discriminate.
  - intros info [H | [H | []]]; subst info;
      (split; [discriminate|]; split; [reflexivity|]; split; [reflexivity|];
       eexists; split; [reflexivity|]; eexists; split; [vm_compute; reflexivity|];
       repeat split).
Defined.

(** ** Construction on a relation *)

Lemma fold_options_withAdapter {A} (options : list ClientStoreOption)
  (s : ClientStore A) (a : A) :
  fold_left applyClientStoreOption options (withAdapter s a)
  = withAdapter (fold_left applyClientStoreOption options s) a.
Proof.
  revert s; induction options as [|o options IH]; intros s; cbn [fold_left].
  - reflexivity.
  - rewrite <- IH. f_equal. destruct o; reflexivity.
Qed.

Lemma NewClientStore_on_relation (t : clientTable) (options : list ClientStoreOption) :
  ~ In WithClientStoreInitTableDisabled options ->
  tableName (configuredClientStore t options) = relName t ->
  NewClientStore t options
  = (Some (withAdapter (configuredClientStore t options) (createdClientTable t)), None).
Proof.
  intros Hen Hname.
  rewrite (NewClientStore_enabled t options Hen). cbv zeta.
  rewrite Hname, (clientTable_Exec_create t). reflexivity.
Qed.

(** X11. Constructing a client store, with table creation enabled, on a
    relation of the configured name succeeds whether the table exists
    already or not, and never loses a row: the store is set on the
    relation, which holds the rows it held. Constructing once more on the
    relation the store holds returns that same store. *)
Theorem construction_keeps_rows :
  forall (t : clientTable) (options : list ClientStoreOption),
    ~ In WithClientStoreInitTableDisabled options ->
    tableName (configuredClientStore t options) = relName t ->
    exists s,
      NewClientStore t options = (Some s, None)
      /\ attached s
      /\ rows (adapter s) = rows t
      /\ NewClientStore (adapter s) options = (Some s, None).
Proof.
  intros t options Hen Hname.
  exists (withAdapter (configuredClientStore t options) (createdClientTable t)).
  split; [now apply NewClientStore_on_relation|].
  split; [split; [exact Hname | reflexivity]|].
  split; [reflexivity|].
  cbn [adapter withAdapter].
  assert (Hcfg : forall a' : clientTable,
             withAdapter (configuredClientStore t options) a'
             = configuredClientStore a' options).
  { intros a'. unfold configuredClientStore.
    now rewrite <- fold_options_withAdapter. }
  rewrite NewClientStore_on_relation.
  - rewrite <- Hcfg. reflexivity.
  - exact Hen.
  - rewrite <- Hcfg. exact Hname.
Qed.

Lemma construction_keeps_rows_witness :
  exists s,
    NewClientStore takenClientTable [] = (Some s, None)
    /\ attached s
    /\ rows (adapter s) = rows takenClientTable
    /\ NewClientStore (adapter s) [] = (Some s, None).
Proof.
  apply (construction_keeps_rows takenClientTable []).
  - intros [].
  - reflexivity.
Defined.

(** X12. From construction to look-up: on a relation of the configured
    name, table created or not, that does not hold the client's id, a
    store constructed with table creation enabled creates the client
    without error and [GetByID] then returns it, the id being non-empty and
    the payload one the relation stores and jsoniter reads back. *)
Theorem construct_create_get :
  forall (I : Type) (CI : ClientInfo I) (JS : Jsoniter I models.Client)
         (t : clientTable) (options : list ClientStoreOption) (info : I),
    ~ In WithClientStoreInitTableDisabled options ->
    tableName (configuredClientStore t options) = relName t ->
    GetID info <> "" ->
    holdsID t (GetID info) = false ->
    storesAndDecodes t info ->
    exists s,
      NewClientStore t options = (Some s, None)
      /\ fst (Create s info) = None
      /\ roundTrips s info.
Proof.
  intros I CI JS t options info Hen Hname Hid Hfresh Hcodec.
  exists (withAdapter (configuredClientStore t options) (createdClientTable t)).
  split; [now apply NewClientStore_on_relation|].
  assert (Hcreate : fst (Create (withAdapter (configuredClientStore t options)
                                   (createdClientTable t)) info) = None).
  { apply Create_succeeds.
    - split; [exact Hname | reflexivity].
    - exact Hfresh.
    - exact Hcodec. }
  split; [exact Hcreate|].
  unfold roundTrips, createThenGetByID.
  now apply Create_then_GetByID.
Qed.

Lemma construct_create_get_witness :
  exists s,
    NewClientStore missingClientTable [] = (Some s, None)
    /\ fst (Create (JS := plainjson.clientCodec) s clientC1) = None
    /\ roundTrips (JS := plainjson.clientCodec) s clientC1.
Proof.
  apply (construct_create_get models.Client _ plainjson.clientCodec
           missingClientTable [] clientC1).
  - intros [].
  - reflexivity.
  - discriminate.
  - reflexivity.
  - split; [reflexivity|]. eexists. split; [reflexivity|].
    exists clientC1. split; [vm_compute; reflexivity | repeat split].
Defined.

(** X13. Skipping table creation is not noticed at construction: on a
    relation whose table does not exist, the construction with table
    creation disabled returns a store and no error, and then every
    [Create] fails and every [GetByID] with a non-empty id fails with an
    error that is not the "no rows" error, the relation staying as it
    is. *)
Theorem disabled_init_on_missing_table :
  forall (I : Type) (CI : ClientInfo I) (JS : Jsoniter I models.Client)
         (t : clientTable) (options : list ClientStoreOption),
    In WithClientStoreInitTableDisabled options ->
    relExists t = false ->
    exists s,
      NewClientStore t options = (Some s, None)
      /\ adapter s = t
      /\ (forall info : I, fst (Create s info) <> None /\ snd (Create s info) = s)
      /\ (forall id, id <> "" ->
            exists msg,
              GetByID (I := I) s id = ((None, Some (errorString msg)), s)).
Proof.
  intros I CI JS t options Hdis Hmissing.
  exists (configuredClientStore t options).
  split; [now apply NewClientStore_disabled|].
  split; [apply configured_adapter|]. split.
  - intros info.
    assert (Hfail : fst (Create (configuredClientStore t options) info) <> None).
    { intros Hok. destruct (Create_success _ info Hok) as [_ [_ [_ [[_ Hex] _]]]].
      rewrite configured_adapter in Hex. congruence. }
    split; [exact Hfail | now apply Create_failure_unchanged].
  - intros id Hid. apply String.eqb_neq in Hid.
    pose proof (configured_adapter t options) as Had.
    generalize dependent (configuredClientStore t options). intros s Had.
    assert (Hmiss : relExists (adapter s) = false) by now rewrite Had.
    unfold GetByID. rewrite Hid.
    cbn [SelectOne clientTable_Adapter]. unfold clientTable_SelectOne.
    rewrite Hmiss. cbn [negb].
    clear Hid.
    destruct (String.eqb _ _); cbv beta iota; rewrite withAdapter_adapter;
      eexists; reflexivity.
Qed.

Lemma disabled_init_on_missing_table_witness :
  exists s,
    NewClientStore missingClientTable [WithClientStoreInitTableDisabled] = (Some s, None)
    /\ fst (Create (JS := plainjson.clientCodec) s clientC1) <> None.
Proof.
  destruct (disabled_init_on_missing_table models.Client _ plainjson.clientCodec
              missingClientTable [WithClientStoreInitTableDisabled])
    as [s [Hnew [_ [Hcreate _]]]]; [now left | reflexivity |].
  exists s. split; [exact Hnew | apply Hcreate].
Defined.

(** ** The mock adapter and the memory logger *)

(** X14. The mock adapter keeps the calls it receives, complete and in
    order, each kind in its own list, whatever its callbacks answer: after
    a run of [Exec] calls the [Exec] list has grown by exactly these calls
    and the [SelectOne] list is as it was, and the other way round after a
    run of [SelectOne] calls. *)
Theorem mockAdapter_records_in_order :
  forall (St : Type) (a : mockAdapter St),
    (forall calls : list queryCall,
        execCalls (execAll a calls) = execCalls a ++ calls
        /\ selectOneCalls (execAll a calls) = selectOneCalls a)
    /\ (forall calls : list (dest * queryCall),
           selectOneCalls (selectAll a calls) = selectOneCalls a ++ map snd calls
           /\ execCalls (selectAll a calls) = execCalls a).
Proof.
  intros St a. split; intros calls; revert a.
  - unfold execAll. induction calls as [|c calls IH]; intros a; cbn [fold_left].
    + now rewrite app_nil_r.
    + destruct (IH (snd (Exec a (query c) (args c)))) as [He Hs].
      destruct (mock_Exec_records a (query c) (args c)) as [_ [He1 Hs1]].
      rewrite He, Hs, He1, Hs1, <- app_assoc. now destruct c.
  - unfold selectAll. induction calls as [|c calls IH]; intros a; cbn [fold_left map].
    + now rewrite app_nil_r.
    + destruct (IH (snd (SelectOne a (fst c) (query (snd c)) (args (snd c)))))
        as [Hs He].
      destruct (mock_SelectOne_records a (fst c) (query (snd c)) (args (snd c)))
        as [Hs1 He1].
      rewrite Hs, He, Hs1, He1, <- app_assoc. now destruct c as [d [q v]].
Qed.

(** X15. The memory logger keeps what it is asked to print, complete and
    in order: after a run of [Printf] calls the formats and the argument
    lists have each grown by those of the calls, so the i-th argument list
    still belongs to the i-th format. *)
Theorem memoryLogger_keeps_entries :
  forall (entries : list (string * list iface)) (l : Logger),
    formats (printAll l entries) = formats l ++ map fst entries
    /\ logArgs (printAll l entries) = logArgs l ++ map snd entries
    /\ (length (formats l) = length (logArgs l) ->
        length (formats (printAll l entries)) = length (logArgs (printAll l entries))).
Proof.
  unfold printAll.
  induction entries as [|e entries IH]; intros l; cbn [fold_left map].
  - rewrite !app_nil_r. auto.
  - destruct (IH (Printf l (fst e) (snd e))) as [Hf [Ha _]].
    rewrite Hf, Ha. cbn [Printf formats logArgs]. rewrite <- !app_assoc.
    repeat split. intros Hlen.
    rewrite !length_app, !length_map. cbn [length]. lia.
Qed.

(** ** The empty id *)

(** X16. [Create] does not check the id: on a store set on its relation, a
    client whose id is empty and not held yet is inserted without error,
    under the empty id; [GetByID] with that id, the empty string, still
    returns a nil client and a nil error, so the client cannot be read
    back. *)
Theorem Create_accepts_empty_id :
  forall (I : Type) (CI : ClientInfo I) (JS : Jsoniter I models.Client)
         (s : ClientStore clientTable) (info : I),
    GetID info = "" ->
    attached s ->
    holdsID (adapter s) "" = false ->
    storesAndDecodes (adapter s) info ->
    fst (Create s info) = None
    /\ holdsID (adapter (snd (Create s info))) "" = true
    /\ createThenGetByID s info = (None, None).
Proof.
  intros I CI JS s info Hid Hs Hfresh Hcodec.
  assert (Hcreate : fst (Create s info) = None).
  { apply Create_succeeds; [exact Hs | now rewrite Hid | exact Hcodec]. }
  split; [exact Hcreate|]. split.
  - destruct (Create_success s info Hcreate) as [stored [_ [_ [_ [_ Hs']]]]].
    rewrite Hs'. unfold holdsID. cbn [adapter withAdapter rows].
    rewrite existsb_app. cbn [existsb]. unfold clientRowHasID at 2. cbn [ID].
    rewrite Hid. cbn. now rewrite orb_true_r.
  - unfold createThenGetByID. now rewrite Hid.
Qed.

Lemma Create_accepts_empty_id_witness :
  let s := defaultClientStore (emptyClientTable "oauth2_clients") in
  fst (Create (JS := plainjson.clientCodec) s clientNoID) = None
  /\ holdsID (adapter (snd (Create (JS := plainjson.clientCodec) s clientNoID))) "" = true
  /\ createThenGetByID (JS := plainjson.clientCodec) s clientNoID = (None, None).
Proof.
  intros s.
  apply (Create_accepts_empty_id models.Client _ plainjson.clientCodec s clientNoID).
  - reflexivity.
  - split; reflexivity.
  - reflexivity.
  - split; [reflexivity|]. eexists. split; [reflexivity|].
    exists clientNoID. split; [vm_compute; reflexivity | repeat split].
Defined.
